(** * The Truffle archive participant of [mx.truffle/mx_truffle.py]

  A shallow embedding of [TruffleArchiveParticipant], the hook that merges
  the [META-INF/truffle/language] and [META-INF/truffle/instrument] entries
  of the jars that are combined into one archive, together with the
  properties of the merge that the specification states. *)

From Stdlib Require Import Ascii String.
From stdpp Require Import base option list strings pretty sorting gmap.

Local Open Scope string_scope.
Local Open Scope list_scope.
Local Open Scope stdpp_scope.

(** ** Python strings

    A Python 2 [str] is a sequence of bytes: Rocq's [string]. *)

Module PyStr.

(** [s.startswith(p)] *)
Definition startswith (s p : string) : bool := String.prefix p s.

(** [s.lstrip()]: the whitespace of the C locale is what
    [Ascii.is_space] accepts (tab, newline, vertical tab, form feed,
    carriage return, space). *)
Fixpoint lstrip (s : string) : string :=
  match s with
  | String c s' => if Ascii.is_space c then lstrip s' else s
  | EmptyString => EmptyString
  end.

(** [s.rstrip()] *)
Fixpoint rstrip (s : string) : string :=
  match s with
  | String c s' =>
      match rstrip s' with
      | EmptyString => if Ascii.is_space c then EmptyString else String c EmptyString
      | r => String c r
      end
  | EmptyString => EmptyString
  end.

(** [s.strip()] *)
Definition strip (s : string) : string := rstrip (lstrip s).

(** [s.split(sep)] for a separator of one character: the pieces between
    the occurrences of [sep]; a string without [sep], the empty string
    included, gives one piece. *)
Fixpoint split (sep : ascii) (s : string) : list string :=
  match s with
  | String c s' =>
      if Ascii.eqb c sep then EmptyString :: split sep s'
      else match split sep s' with
           | w :: ws => String c w :: ws
           | [] => [String c EmptyString]
           end
  | EmptyString => [EmptyString]
  end.

(** [sep.join(l)] *)
Definition join (sep : string) (l : list string) : string := String.concat sep l.

(** [str(n)] for a non-negative integer: its decimal digits. *)
Definition str (n : N) : string := pretty n.

(** [sorted(l)] on a list of [str]: ascending in the byte-wise
    lexicographic order. *)
Definition sorted (l : list string) : list string := merge_sort String.le l.

End PyStr.

(** ** The regular expression [PROPERTY_RE] *)

Module Re.

Definition newline : ascii := "010"%char.

(** [\d] on a byte string *)
Definition is_digit (c : ascii) : bool :=
  match Ascii.is_nat c with Some _ => true | None => false end.

(** The longest run of digits at the head of [s], and what follows it. *)
Fixpoint span_digits (s : string) : string * string :=
  match s with
  | String c s' =>
      if is_digit c
      then let '(ds, r) := span_digits s' in (String c ds, r)
      else (EmptyString, s)
  | EmptyString => (EmptyString, EmptyString)
  end.

(** What a greedy [.*] takes: everything up to the first newline. *)
Fixpoint dot_star (s : string) : string :=
  match s with
  | String c s' => if Ascii.eqb c newline then EmptyString else String c (dot_star s')
  | EmptyString => EmptyString
  end.

(** [s] without its prefix [p], when it has that prefix. *)
Fixpoint strip_prefix (p s : string) : option string :=
  match p, s with
  | EmptyString, _ => Some s
  | String a p', String b s' => if Ascii.eqb a b then strip_prefix p' s' else None
  | String _ _, EmptyString => None
  end.

(** One alternative of the first group followed by the second group:
    [(tag\d+)(\..+)] matched at the start of [line]. [\d+] is greedy and
    giving back digits cannot help, since the character that follows a
    shorter run is a digit and not the dot. The result is
    [(m.group(1), m.group(2))]. *)
Definition match_alternative (tag line : string) : option (string * string) :=
  match strip_prefix tag line with
  | Some r =>
      let '(ds, r1) := span_digits r in
      if decide (ds = EmptyString) then None
      else match r1 with
           | String c r2 =>
               if Ascii.eqb c "."
               then let t := dot_star r2 in
                    if decide (t = EmptyString) then None
                    else Some (tag +:+ ds, String "." t)
               else None
           | EmptyString => None
           end
  | None => None
  end.

Definition pattern : string := "(language\d+|instrument\d+)(\..+)".

(** [PROPERTY_RE.match(line)]: the alternatives are tried in order. *)
Definition PROPERTY_RE_match (line : string) : option (string * string) :=
  match match_alternative "language" line with
  | Some m => Some m
  | None => match_alternative "instrument" line
  end.

End Re.

(** ** Exceptions and the state of the participant *)

Inductive exn : Type :=
| AssertionError (msg : string)
| KeyError (key : string).

Inductive result (A : Type) : Type :=
| Return (a : A)
| Raise (e : exn).
Arguments Return {A} a.
Arguments Raise {A} e.

(** The archive being written: [arc.zf] is the zip file, of which only the
    entries written with [writestr] matter here, oldest first. *)
Record Archiver : Type := mkArchiver { zf : list (string * string) }.

Definition writestr (arcname content : string) (a : Archiver) : Archiver :=
  {| zf := zf a ++ [(arcname, content)] |}.

(** One batch: the [properties] dict that [__add__] builds from one entry. *)
Abbreviation properties_t := (gmap string (list string)).

Record TruffleArchiveParticipant : Type := mkParticipant {
  settings : gmap string (list properties_t);
  arc : Archiver
}.

(** Methods run on [self] and either return or raise; what they did to
    [self] before raising stays done. *)
Definition M (A : Type) : Type :=
  TruffleArchiveParticipant → result A * TruffleArchiveParticipant.

Global Instance M_ret : MRet M := λ A a self, (Return a, self).
Global Instance M_bind : MBind M := λ A B k m self,
  match m self with
  | (Return a, self') => k a self'
  | (Raise e, self') => (Raise e, self')
  end.
Definition lift {A} (r : result A) : M A := λ self, (r, self).

(** ** The methods of [TruffleArchiveParticipant] *)

Definition _truffle_metainf_file (arcname : string) : option string :=
  if decide (arcname = "META-INF/truffle/language") then Some "language"
  else if decide (arcname = "META-INF/truffle/instrument") then Some "instrument"
  else None.

Definition __opened__ (arc0 srcArc : Archiver) (services : list string) : M unit :=
  λ _, (Return tt, {| settings := ∅; arc := arc0 |}).

(** [d.setdefault(k, []).append(v)] *)
Definition setdefault_append {V} (k : string) (v : V) (d : gmap string (list V))
  : gmap string (list V) :=
  <[k := default [] (d !! k) ++ [v]]> d.

(** [contents.strip().split('\n')], the lines that [__add__] goes through. *)
Definition content_lines (contents : string) : list string :=
  PyStr.split Re.newline (PyStr.strip contents).

(** What the failed assertion of [__add__] raises. *)
Definition format_error (arcname line : string) : exn :=
  AssertionError
    ("line in " +:+ arcname +:+ " does not match " +:+ Re.pattern +:+ ": " +:+ line).

(** The loop of [__add__] over the lines, on the local [properties]. *)
Fixpoint add_lines (arcname : string) (lines : list string) (properties : properties_t)
  : result properties_t :=
  match lines with
  | [] => Return properties
  | line :: rest =>
      if PyStr.startswith line "#" then add_lines arcname rest properties
      else
        match Re.PROPERTY_RE_match line with
        | None => Raise (format_error arcname line)
        | Some (enum, prop) =>
            add_lines arcname rest (setdefault_append enum prop properties)
        end
  end.

Definition __add__ (arcname contents : string) : M bool := λ self,
  match _truffle_metainf_file arcname with
  | Some metainfFile =>
      match add_lines arcname (content_lines contents) ∅ with
      | Return properties =>
          (Return true,
           {| settings := setdefault_append metainfFile properties (settings self);
              arc := arc self |})
      | Raise e => (Raise e, self)
      end
  | None => (Return false, self)
  end.

Definition __addsrc__ (arcname contents : string) : M bool := mret false.

(** [self.arc.zf.writestr(arcname, content)] *)
Definition arc_writestr (arcname content : string) : M unit := λ self,
  (Return tt, {| settings := settings self; arc := writestr arcname content (arc self) |}).

(** [properties.viewkeys()], in the order in which the dict gives them. *)
Definition viewkeys (properties : properties_t) : list string :=
  (map_to_list properties).*1.

(** The loop of [__closing__] over the sorted keys of one batch, on the
    locals [lines] and [counter]. *)
Fixpoint closing_enums (metainfFile : string) (properties : properties_t)
    (enums : list string) (lines : list string) (counter : N)
  : result (list string * N) :=
  match enums with
  | [] => Return (lines, counter)
  | enum :: rest =>
      if PyStr.startswith enum metainfFile then
        let newEnum := metainfFile +:+ PyStr.str counter in
        match properties !! enum with
        | Some props =>
            closing_enums metainfFile properties rest
              (lines ++ ((λ prop, newEnum +:+ prop) <$> props)) (counter + 1)
        | None => Raise (KeyError enum)
        end
      else Raise (AssertionError EmptyString)
  end.

(** The loop over the batches of one kind. *)
Fixpoint closing_batches (metainfFile : string) (propertiesList : list properties_t)
    (lines : list string) (counter : N) : result (list string * N) :=
  match propertiesList with
  | [] => Return (lines, counter)
  | properties :: rest =>
      match closing_enums metainfFile properties
              (PyStr.sorted (viewkeys properties)) lines counter with
      | Return (lines', counter') => closing_batches metainfFile rest lines' counter'
      | Raise e => Raise e
      end
  end.

Section closing.

(** [os.linesep], which depends on the platform. *)
Variable linesep : string.

(** The loop over the items of [self.settings]. *)
Fixpoint closing_items (items : list (string * list properties_t)) : M unit :=
  match items with
  | [] => mret tt
  | (metainfFile, propertiesList) :: rest =>
      let arcname := "META-INF/truffle/" +:+ metainfFile in
      '(lines, _) ← lift (closing_batches metainfFile propertiesList [] 1%N);
      let content := PyStr.join linesep lines in
      arc_writestr arcname (content +:+ linesep);;
      closing_items rest
  end.

Definition __closing__ : M unit := λ self,
  closing_items (map_to_list (settings self)) self.

(** Modelled from the spec: the archive writer of the host build tool,
    which is not part of the sources, calls [add] for every candidate entry;
    an exception ends the loop at once. The flags are what the [add]s
    returned. *)
Fixpoint add_all (entries : list (string * string)) : M (list bool) :=
  match entries with
  | [] => mret []
  | (arcname, contents) :: rest =>
      handled ← __add__ arcname contents;
      flags ← add_all rest;
      mret (handled :: flags)
  end.

(** Modelled from the spec: one session of the archive writer, which is not
    part of the sources: [open] once on a new archive, [add] for every
    candidate entry, [close] once. *)
Definition session (entries : list (string * string)) : M (list bool) :=
  __opened__ {| zf := [] |} {| zf := [] |} [];;
  flags ← add_all entries;
  __closing__;;
  mret flags.

End closing.

(** ** Notions of the specification *)

(** [all_chars P s]: every character of [s] satisfies [P]. *)
Fixpoint all_chars (P : ascii → bool) (s : string) : bool :=
  match s with
  | String c s' => P c && all_chars P s'
  | EmptyString => true
  end.

Definition nl : string := String Re.newline EmptyString.

Definition not_newline (c : ascii) : bool := negb (Ascii.eqb c Re.newline).

(** The regular expressions that [PROPERTY_RE] is made of, and the strings
    that each of them matches. *)
Inductive regex : Type :=
| Lit (s : string)
| Chars (P : ascii → bool)
| Plus (r : regex)
| Alt (r1 r2 : regex)
| Seq (r1 r2 : regex).

Inductive in_lang : regex → string → Prop :=
| in_Lit s : in_lang (Lit s) s
| in_Chars (P : ascii → bool) c : P c = true → in_lang (Chars P) (String c EmptyString)
| in_Plus_one r s : in_lang r s → in_lang (Plus r) s
| in_Plus_more r s t : in_lang r s → in_lang (Plus r) t → in_lang (Plus r) (s +:+ t)
| in_Alt_l r1 r2 s : in_lang r1 s → in_lang (Alt r1 r2) s
| in_Alt_r r1 r2 s : in_lang r2 s → in_lang (Alt r1 r2) s
| in_Seq r1 r2 s t : in_lang r1 s → in_lang r2 t → in_lang (Seq r1 r2) (s +:+ t).

(** [language\d+|instrument\d+], the first group of [PROPERTY_RE] *)
Definition group1 : regex :=
  Alt (Seq (Lit "language") (Plus (Chars Re.is_digit)))
      (Seq (Lit "instrument") (Plus (Chars Re.is_digit))).

(** [\..+], the second group of [PROPERTY_RE] *)
Definition group2 : regex :=
  Seq (Lit ".") (Plus (Chars not_newline)).

(** [(language\d+|instrument\d+)(\..+)] *)
Definition PROPERTY_RE : regex := Seq group1 group2.

(** What the specification says of a line that matches: a kind tag, an
    index of one or more digits, and a suffix that starts with the dot and
    goes on, for at least one more character, to the end of the line. *)
Definition matches_pattern (line enum prop : string) : Prop :=
  ∃ tag ds t rest,
    (tag = "language" ∨ tag = "instrument") ∧
    ds ≠ EmptyString ∧ all_chars Re.is_digit ds = true ∧
    t ≠ EmptyString ∧ all_chars not_newline t = true ∧
    (rest = EmptyString ∨ ∃ r, rest = String Re.newline r) ∧
    enum = tag +:+ ds ∧ prop = String "." t ∧ line = enum +:+ prop +:+ rest.

(** Where a run of digits ends: at the end of the string or before a
    character that is not a digit. *)
Definition digits_end (r : string) : Prop :=
  r = EmptyString ∨ ∃ c r', r = String c r' ∧ Re.is_digit c = false.

(** Where [.*] stops: at the end of the string or before a newline. *)
Definition line_end (r : string) : Prop :=
  r = EmptyString ∨ ∃ r', r = String Re.newline r'.

(** A line on which the assertion of [__add__] fails: not a comment, and
    not of the pattern. *)
Definition bad_line (line : string) : Prop :=
  PyStr.startswith line "#" = false ∧ ∀ enum prop, ¬ matches_pattern line enum prop.

(** A line that [__add__] accepts: a comment, or of the pattern. *)
Definition good_line (line : string) : Prop :=
  PyStr.startswith line "#" = true ∨ ∃ enum prop, matches_pattern line enum prop.

(** The lines that are not comments. *)
Definition without_comments (lines : list string) : list string :=
  filter (λ line, PyStr.startswith line "#" = false) lines.


(** The groups of one batch, as the specification orders them: the suffix
    lists of the keys in ascending order of the keys. *)
Definition batch_groups (properties : properties_t) : list (list string) :=
  (λ enum, default [] (properties !! enum)) <$> PyStr.sorted (viewkeys properties).

(** The groups of a kind: those of its batches, batch after batch. *)
Definition merged_groups (propertiesList : list properties_t) : list (list string) :=
  mjoin (batch_groups <$> propertiesList).

(** The lines of one group under the index [n]: [<kind><n><suffix>] for
    each of its suffixes, in their order. *)
Definition group_lines (kind : string) (n : N) (group : list string) : list string :=
  (λ prop, (kind +:+ PyStr.str n) +:+ prop) <$> group.

(** The lines of a list of groups when the group at position [i] (from 0)
    gets the index [start + i]. *)
Definition numbered_from (kind : string) (start : N) (groups : list (list string))
  : list string :=
  mjoin (imap (λ i group, group_lines kind (start + N.of_nat i) group) groups).

(** The lines of the merged entry: the groups are numbered from 1. *)
Definition numbered_lines (kind : string) (groups : list (list string)) : list string :=
  numbered_from kind 1 groups.

(** Every group key of the batch carries the tag of the kind. *)
Definition tagged (kind : string) (properties : properties_t) : Prop :=
  map_Forall (λ enum _, PyStr.startswith enum kind = true) properties.

(** What [__closing__] writes for one item of the settings table. *)
Definition merged_entry (linesep : string) (item : string * list properties_t)
  : string * string :=
  ("META-INF/truffle/" +:+ item.1,
   PyStr.join linesep (numbered_lines item.1 (merged_groups item.2)) +:+ linesep).

(** The batches of an item of the settings table carry the tag of its
    kind. *)
Definition tagged_item (item : string * list properties_t) : Prop :=
  Forall (tagged item.1) item.2.

(** The batch that [__add__] records for a content is [properties]. *)
Definition parses_to (arcname contents : string) (properties : properties_t) : Prop :=
  add_lines arcname (content_lines contents) ∅ = Return properties.

(** The suffixes that the lines give to the group key [enum], in the order
    of the lines. *)
Definition line_props (enum : string) (lines : list string) : list string :=
  omap (λ line,
          if PyStr.startswith line "#" then None
          else match Re.PROPERTY_RE_match line with
               | Some (enum', prop) => if decide (enum' = enum) then Some prop else None
               | None => None
               end) lines.

(** A suffix as the pattern delivers it: the dot, then at least one
    character, and no newline. *)
Definition wf_prop (prop : string) : Prop :=
  ∃ t, prop = String "." t ∧ t ≠ EmptyString ∧ all_chars not_newline t = true.

(** A group as a batch holds it: at least one suffix, all of them as the
    pattern delivers them. *)
Definition wf_group (group : list string) : Prop :=
  group ≠ [] ∧ Forall wf_prop group.

(** The two kinds. *)
Definition is_kind (kind : string) : Prop :=
  kind = "language" ∨ kind = "instrument".

(** The group keys of a merged entry of [n] groups: [<kind>1] to [<kind>n]. *)
Definition new_keys (kind : string) (n : nat) : list string :=
  (λ i, kind +:+ PyStr.str (1 + N.of_nat i)) <$> seq 0 n.

(** The line separator of Windows. *)
Definition crlf : string := String "013" nl.

(** A participant before its first session. *)
Definition fresh : TruffleArchiveParticipant :=
  {| settings := ∅; arc := {| zf := [] |} |}.

(** ** Further notions *)

(** The contents that a list of entries holds for one kind, in their
    order. *)
Definition kind_contents (kind : string) (entries : list (string * string))
  : list string :=
  omap (λ entry, if decide (_truffle_metainf_file entry.1 = Some kind)
                 then Some entry.2 else None) entries.

(** The suffixes of the lines that are not comments, in the order of the
    lines. *)
Definition all_props (lines : list string) : list string :=
  omap (λ line, if PyStr.startswith line "#" then None
                else snd <$> Re.PROPERTY_RE_match line) lines.

(** The new key in front of each line of a merged entry. *)
Definition line_keys (kind : string) (start : N) (groups : list (list string))
  : list string :=
  mjoin (imap (λ i group,
                 replicate (length group) (kind +:+ PyStr.str (start + N.of_nat i)))
              groups).

(** The batches of every kind of a settings table carry the tag of the
    kind. *)
Definition tagged_table (table : gmap string (list properties_t)) : Prop :=
  map_Forall (λ kind propertiesList, Forall (tagged kind) propertiesList) table.

(** ** The text of a content *)

(** The line begins with a character that is not whitespace. *)
Definition begins_clean (line : string) : Prop :=
  ∃ c t, line = String c t ∧ Ascii.is_space c = false.

(** The line ends with a character that is not whitespace. *)
Definition ends_clean (line : string) : Prop :=
  ∃ t c, line = t +:+ String c EmptyString ∧ Ascii.is_space c = false.

(** Lines whose text has no whitespace at its two ends that matters: the
    first line begins with a character that is not whitespace, and the last
    line ends with one or is a comment. *)
Definition clean_ends (lines : list string) : Prop :=
  (∃ line, head lines = Some line ∧ begins_clean line) ∧
  (∃ line, last lines = Some line ∧
           (PyStr.startswith line "#" = true ∨ ends_clean line)).

(** None of the lines holds a newline. *)
Definition one_line_each (lines : list string) : Prop :=
  Forall (λ line, all_chars not_newline line = true) lines.
(** ** The code on a few inputs *)

Example content_lines_strips :
  content_lines ("  language1.a" +:+ nl +:+ "#x" +:+ nl +:+ nl) = ["language1.a"; "#x"].
Proof. reflexivity. Qed.

Example match_groups :
  Re.PROPERTY_RE_match "language3.className=Foo" = Some ("language3", ".className=Foo").
Proof. reflexivity. Qed.

Example match_needs_index : Re.PROPERTY_RE_match "language.x" = None.
Proof. reflexivity. Qed.

Example match_needs_suffix : Re.PROPERTY_RE_match "instrument12." = None.
Proof. reflexivity. Qed.

Example match_stops_at_newline :
  Re.PROPERTY_RE_match ("language3.a" +:+ nl +:+ "b") = Some ("language3", ".a").
Proof. reflexivity. Qed.

Example sorted_as_strings :
  PyStr.sorted ["language2"; "language10"; "language1"]
  = ["language1"; "language10"; "language2"].
Proof. reflexivity. Qed.

Example str_of_ten : PyStr.str 10 = "10".
Proof. reflexivity. Qed.

Example session_of_three_entries :
  let r := session nl
             [("META-INF/truffle/instrument", "instrument7.a");
              ("META-INF/MANIFEST.MF", "Manifest-Version: 1.0");
              ("META-INF/truffle/language",
               "language1.b" +:+ nl +:+ "language0.c" +:+ nl +:+ "language1.d")]
             fresh in
  r.1 = Return [true; false; true] ∧
  zf (arc r.2)
  = [("META-INF/truffle/instrument", "instrument1.a" +:+ nl);
     ("META-INF/truffle/language",
      "language1.c" +:+ nl +:+ "language2.b" +:+ nl +:+ "language2.d" +:+ nl)].
Proof. split; vm_compute; reflexivity. Qed.

Example same_key_in_two_batches :
  zf (arc (session nl
             [("META-INF/truffle/language", "language1.a" +:+ nl +:+ "language1.b");
              ("META-INF/truffle/language", "language1.a" +:+ nl +:+ "language1.b")]
             fresh).2)
  = [("META-INF/truffle/language",
      "language1.a" +:+ nl +:+ "language1.b" +:+ nl
      +:+ "language2.a" +:+ nl +:+ "language2.b" +:+ nl)].
Proof. vm_compute. reflexivity. Qed.

(** Goals that a decision procedure settles by evaluation. *)
Ltac by_evaluation :=
  match goal with
  | |- ?P => apply (bool_decide_unpack P); vm_compute; exact I
  end.

(** ** Strings *)

Section string_facts.

Implicit Types s t u : string.

Lemma sapp_nil_l s : EmptyString +:+ s = s.
Proof. reflexivity. Qed.

Lemma sapp_cons c s t : String c s +:+ t = String c (s +:+ t).
Proof. reflexivity. Qed.

Lemma sapp_nil_r s : s +:+ EmptyString = s.
Proof. induction s as [|c s IH]; [done|]. by rewrite sapp_cons, IH. Qed.

Lemma sapp_assoc s t u : (s +:+ t) +:+ u = s +:+ t +:+ u.
Proof. induction s as [|c s IH]; [done|]. by rewrite !sapp_cons, IH. Qed.

Lemma all_chars_app P s t :
  all_chars P (s +:+ t) = all_chars P s && all_chars P t.
Proof.
  induction s as [|c s IH]; [done|]. rewrite sapp_cons. simpl.
  by rewrite IH, andb_assoc.
Qed.

Lemma startswith_nil s : PyStr.startswith s EmptyString = true.
Proof. by destruct s. Qed.

Lemma startswith_cons c s d p :
  PyStr.startswith (String c s) (String d p)
  = bool_decide (d = c) && PyStr.startswith s p.
Proof.
  unfold PyStr.startswith. simpl. destruct (ascii_dec d c) as [->|Hne].
  - by rewrite bool_decide_eq_true_2.
  - by rewrite bool_decide_eq_false_2.
Qed.

Lemma startswith_app p s : PyStr.startswith (p +:+ s) p = true.
Proof.
  induction p as [|c p IH]; [apply startswith_nil|].
  rewrite sapp_cons, startswith_cons, IH. by rewrite bool_decide_eq_true_2.
Qed.

(** *** [lstrip], [rstrip] and [strip] *)

Lemma lstrip_all_space s : all_chars Ascii.is_space s = true → PyStr.lstrip s = EmptyString.
Proof.
  induction s as [|c s IH]; simpl; [done|].
  intros [Hc Hs]%andb_true_iff. rewrite Hc. by apply IH.
Qed.

Lemma strip_all_space s : all_chars Ascii.is_space s = true → PyStr.strip s = EmptyString.
Proof. intros H. unfold PyStr.strip. by rewrite lstrip_all_space. Qed.

Lemma lstrip_not_all_space s :
  all_chars Ascii.is_space s = false → PyStr.lstrip s ≠ EmptyString.
Proof.
  induction s as [|c s IH]; simpl; [done|].
  destruct (Ascii.is_space c); simpl; [done|]. by intros _.
Qed.

Lemma rstrip_not_all_space s :
  all_chars Ascii.is_space s = false → PyStr.rstrip s ≠ EmptyString.
Proof.
  induction s as [|c s IH]; simpl; [done|].
  destruct (Ascii.is_space c) eqn:Hc; simpl.
  - intros H. specialize (IH H). by destruct (PyStr.rstrip s).
  - intros _. by destruct (PyStr.rstrip s).
Qed.

Lemma lstrip_app s t :
  PyStr.lstrip s ≠ EmptyString → PyStr.lstrip (s +:+ t) = PyStr.lstrip s +:+ t.
Proof.
  induction s as [|c s IH]; [done|]. rewrite sapp_cons. simpl.
  destruct (Ascii.is_space c); [done|]. by intros _.
Qed.

Lemma rstrip_app s t :
  PyStr.rstrip t ≠ EmptyString → PyStr.rstrip (s +:+ t) = s +:+ PyStr.rstrip t.
Proof.
  intros Ht. induction s as [|c s IH]; [done|]. rewrite !sapp_cons. simpl.
  rewrite IH. destruct (s +:+ PyStr.rstrip t) eqn:E; [|done].
  destruct s; [done|discriminate].
Qed.

(** *** [split] *)

Lemma split_nonempty sep s : PyStr.split sep s ≠ [].
Proof.
  destruct s as [|c s]; simpl; [done|].
  destruct (Ascii.eqb c sep); [done|]. by destruct (PyStr.split sep s).
Qed.

Lemma split_app sep s t :
  PyStr.split sep (s +:+ String sep t) = PyStr.split sep s ++ PyStr.split sep t.
Proof.
  induction s as [|c s IH].
  - rewrite sapp_nil_l. simpl. by rewrite Ascii.eqb_refl.
  - rewrite sapp_cons. simpl. destruct (Ascii.eqb c sep); rewrite IH; [done|].
    pose proof (split_nonempty sep s). by destruct (PyStr.split sep s).
Qed.

Lemma split_no_sep sep s :
  all_chars (λ c, negb (Ascii.eqb c sep)) s = true → PyStr.split sep s = [s].
Proof.
  induction s as [|c s IH]; simpl; [done|].
  intros [Hc Hs]%andb_true_iff. apply negb_true_iff in Hc. rewrite Hc.
  by rewrite IH.
Qed.

Lemma split_pieces sep s :
  Forall (λ piece, all_chars (λ c, negb (Ascii.eqb c sep)) piece = true)
         (PyStr.split sep s).
Proof.
  induction s as [|c s IH]; simpl.
  - by apply Forall_singleton.
  - destruct (Ascii.eqb c sep) eqn:Hc.
    + by apply Forall_cons.
    + destruct (PyStr.split sep s) as [|w ws].
      * apply Forall_singleton. simpl. by rewrite Hc.
      * apply Forall_cons in IH as [Hw Hws]. apply Forall_cons. split; [|done].
        simpl. by rewrite Hc, Hw.
Qed.

End string_facts.

(** ** The pattern *)

Section pattern_facts.

Implicit Types s t r ds line tag : string.

Lemma strip_prefix_app tag r : Re.strip_prefix tag (tag +:+ r) = Some r.
Proof.
  induction tag as [|c tag IH]; [by destruct r|].
  rewrite sapp_cons. simpl. by rewrite Ascii.eqb_refl.
Qed.

Lemma strip_prefix_inv tag s r : Re.strip_prefix tag s = Some r → s = tag +:+ r.
Proof.
  revert s. induction tag as [|c tag IH]; intros s H.
  - destruct s; simpl in H; by simplify_eq.
  - destruct s as [|d s]; simpl in H; [done|].
    destruct (Ascii.eqb_spec c d) as [->|]; [|done].
    rewrite sapp_cons. f_equal. by apply IH.
Qed.

Lemma span_digits_inv s ds r :
  Re.span_digits s = (ds, r) →
  s = ds +:+ r ∧ all_chars Re.is_digit ds = true ∧ digits_end r.
Proof.
  revert ds r. induction s as [|c s IH]; intros ds r H; simpl in H.
  - simplify_eq. split_and!; [done..|by left].
  - destruct (Re.is_digit c) eqn:Hc.
    + destruct (Re.span_digits s) as [ds' r'] eqn:E. simplify_eq.
      destruct (IH _ _ eq_refl) as (-> & Hds & Hr).
      split_and!; [done| |done]. simpl. by rewrite Hc.
    + simplify_eq. split_and!; [done..|]. right. eauto.
Qed.

Lemma span_digits_app ds r :
  all_chars Re.is_digit ds = true → digits_end r → Re.span_digits (ds +:+ r) = (ds, r).
Proof.
  intros Hds Hr. induction ds as [|c ds IH].
  - rewrite sapp_nil_l. destruct Hr as [->|(c & r' & -> & Hc)]; [done|].
    simpl. by rewrite Hc.
  - simpl in Hds. apply andb_true_iff in Hds as [Hc Hds].
    rewrite sapp_cons. simpl. by rewrite Hc, IH.
Qed.

Lemma dot_star_inv s :
  all_chars not_newline (Re.dot_star s) = true ∧
  ∃ rest, s = Re.dot_star s +:+ rest ∧ line_end rest.
Proof.
  induction s as [|c s (IH1 & rest & IH2 & IH3)]; simpl.
  - split; [done|]. exists EmptyString. split; [done|by left].
  - destruct (Ascii.eqb_spec c Re.newline) as [->|Hne].
    + split; [done|]. exists (String Re.newline s). split; [done|]. right. eauto.
    + split.
      * simpl. rewrite IH1, andb_true_r. unfold not_newline.
        apply negb_true_iff. by apply Ascii.eqb_neq.
      * exists rest. rewrite sapp_cons. by rewrite <-IH2.
Qed.

Lemma dot_star_app t rest :
  all_chars not_newline t = true → line_end rest → Re.dot_star (t +:+ rest) = t.
Proof.
  intros Ht Hr. induction t as [|c t IH].
  - rewrite sapp_nil_l. by destruct Hr as [->|(r' & ->)].
  - simpl in Ht. apply andb_true_iff in Ht as [Hc Ht]. rewrite sapp_cons. simpl.
    unfold not_newline in Hc. apply negb_true_iff in Hc. by rewrite Hc, IH.
Qed.

Lemma match_alternative_inv tag line enum prop :
  Re.match_alternative tag line = Some (enum, prop) →
  ∃ ds t rest,
    ds ≠ EmptyString ∧ all_chars Re.is_digit ds = true ∧
    t ≠ EmptyString ∧ all_chars not_newline t = true ∧ line_end rest ∧
    enum = tag +:+ ds ∧ prop = String "." t ∧ line = enum +:+ prop +:+ rest.
Proof.
  unfold Re.match_alternative. intros H.
  destruct (Re.strip_prefix tag line) as [r|] eqn:Hp; [|done].
  apply strip_prefix_inv in Hp as ->.
  destruct (Re.span_digits r) as [ds r1] eqn:Hd.
  apply span_digits_inv in Hd as (-> & Hds & _).
  destruct (decide (ds = EmptyString)) as [|Hne]; [done|].
  destruct r1 as [|c r2]; [done|].
  destruct (Ascii.eqb_spec c ".") as [->|]; [|done].
  destruct (decide (Re.dot_star r2 = EmptyString)) as [|Hne']; [done|].
  simplify_eq. destruct (dot_star_inv r2) as (Ht & rest & Hr2 & Hrest).
  exists ds, (Re.dot_star r2), rest. split_and!; try done.
  rewrite sapp_assoc. do 2 f_equal. rewrite sapp_cons. by rewrite <-Hr2.
Qed.

Lemma digit_dot : Re.is_digit "." = false.
Proof. reflexivity. Qed.

Lemma match_alternative_app tag ds t rest :
  ds ≠ EmptyString → all_chars Re.is_digit ds = true →
  t ≠ EmptyString → all_chars not_newline t = true → line_end rest →
  Re.match_alternative tag ((tag +:+ ds) +:+ String "." t +:+ rest)
  = Some (tag +:+ ds, String "." t).
Proof.
  intros Hne Hds Hne' Ht Hrest. unfold Re.match_alternative.
  rewrite sapp_assoc, strip_prefix_app, sapp_cons.
  rewrite span_digits_app; [|done|right; eauto using digit_dot].
  cbv beta iota zeta. destruct (decide (ds = EmptyString)); [done|].
  rewrite Ascii.eqb_refl, dot_star_app by done.
  by destruct (decide (t = EmptyString)).
Qed.

Lemma match_alternative_other tag c r line :
  tag = String c r → (∀ line', line ≠ String c line') →
  Re.match_alternative tag line = None.
Proof.
  intros -> Hline. unfold Re.match_alternative.
  destruct line as [|d line]; [done|]. simpl.
  destruct (Ascii.eqb_spec c d) as [->|]; [|done]. by destruct (Hline line).
Qed.

(** [PROPERTY_RE.match] finds exactly the lines of the pattern, and its
    groups are the group key and the suffix. *)
Lemma PROPERTY_RE_match_spec line enum prop :
  Re.PROPERTY_RE_match line = Some (enum, prop) ↔ matches_pattern line enum prop.
Proof.
  unfold Re.PROPERTY_RE_match, matches_pattern. split.
  - intros H. destruct (Re.match_alternative "language" line) as [m|] eqn:E.
    + simplify_eq. apply match_alternative_inv in E
        as (ds & t & rest & ? & ? & ? & ? & ? & ? & ? & ?).
      exists "language", ds, t, rest. split_and!; auto.
    + apply match_alternative_inv in H
        as (ds & t & rest & ? & ? & ? & ? & ? & ? & ? & ?).
      exists "instrument", ds, t, rest. split_and!; auto.
  - intros (tag & ds & t & rest & [-> | ->] & ? & ? & ? & ? & ? & -> & -> & ->).
    + by rewrite match_alternative_app.
    + rewrite (match_alternative_other "language" "l" "anguage"); [|done..].
      by rewrite match_alternative_app.
Qed.

Lemma PROPERTY_RE_match_blank w :
  all_chars Ascii.is_space w = true → Re.PROPERTY_RE_match w = None.
Proof.
  intros Hw. destruct (Re.PROPERTY_RE_match w) as [[enum prop]|] eqn:E; [|done].
  apply PROPERTY_RE_match_spec in E
    as (tag & ds & t & rest & [-> | ->] & _ & _ & _ & _ & _ & -> & -> & ->);
    by rewrite !sapp_cons in Hw.
Qed.

End pattern_facts.

(** *** The pattern as a regular expression *)

Section regex_facts.

Implicit Types (s t : string) (P : ascii → bool).

Lemma in_plus_chars P s :
  in_lang (Plus (Chars P)) s ↔ s ≠ EmptyString ∧ all_chars P s = true.
Proof.
  split.
  - remember (Plus (Chars P)) as r eqn:Hr. intros H.
    induction H as [| |r s H _|r s t H _ Ht IH| | |]; try discriminate Hr.
    + injection Hr as ->. inversion H; subst. simpl. split; [done|].
      by rewrite andb_true_r.
    + injection Hr as ->. inversion H; subst. destruct (IH eq_refl) as [_ IHt].
      rewrite sapp_cons, sapp_nil_l. simpl. split; [done|].
      by apply andb_true_iff.
  - intros [Hne Hs]. induction s as [|c s IH]; [done|]. simpl in Hs.
    apply andb_true_iff in Hs as [Hc Hs]. destruct s as [|c' s].
    + by apply in_Plus_one, in_Chars.
    + apply (in_Plus_more _ (String c EmptyString) (String c' s)).
      * by apply in_Chars.
      * by apply IH.
Qed.

Lemma in_seq_lit s0 r s : in_lang (Seq (Lit s0) r) s ↔ ∃ t, s = s0 +:+ t ∧ in_lang r t.
Proof.
  split.
  - intros H. inversion H as [| | | | | |? ? s1 t H1 H2]; subst.
    inversion H1; subst. eauto.
  - intros (t & -> & Ht). apply in_Seq; [apply in_Lit|done].
Qed.

Lemma in_group1 enum :
  in_lang group1 enum ↔
  ∃ tag ds, (tag = "language" ∨ tag = "instrument") ∧
            ds ≠ EmptyString ∧ all_chars Re.is_digit ds = true ∧ enum = tag +:+ ds.
Proof.
  unfold group1. split.
  - intros H. inversion H as [| | | |? ? ? H1|? ? ? H1|]; subst;
      apply in_seq_lit in H1 as (ds & -> & [? ?]%in_plus_chars); eauto 8.
  - intros (tag & ds & [-> | ->] & Hne & Hds & ->);
      [apply in_Alt_l|apply in_Alt_r]; apply in_seq_lit; eexists;
      (split; [done|]); by apply in_plus_chars.
Qed.

Lemma in_group2 prop : in_lang group2 prop ↔ wf_prop prop.
Proof.
  unfold group2, wf_prop. rewrite in_seq_lit.
  split; intros (t & -> & H); exists t; (split; [done|]); by apply in_plus_chars.
Qed.

(** [PROPERTY_RE.match(line)] finds a match exactly when [line] starts
    with a string of the first group followed by one of the second; the two
    groups are those strings, the second one as long as it can be. *)
Lemma PROPERTY_RE_match_lang line enum prop :
  Re.PROPERTY_RE_match line = Some (enum, prop) ↔
  in_lang group1 enum ∧ in_lang group2 prop ∧
  ∃ rest, line = enum +:+ prop +:+ rest ∧ line_end rest.
Proof.
  rewrite PROPERTY_RE_match_spec, in_group1, in_group2. unfold matches_pattern, wf_prop.
  split.
  - intros (tag & ds & t & rest & ? & ? & ? & ? & ? & ? & -> & -> & ->).
    split_and!; eauto 10.
  - intros ((tag & ds & ? & ? & ? & ->) & (t & -> & ? & ?) & rest & -> & ?).
    exists tag, ds, t, rest. split_and!; eauto.
Qed.

(** [PROPERTY_RE.match(line)] finds a match exactly when [PROPERTY_RE]
    matches a prefix of [line]. *)
Lemma PROPERTY_RE_match_prefix line :
  is_Some (Re.PROPERTY_RE_match line) ↔
  ∃ s rest, line = s +:+ rest ∧ in_lang PROPERTY_RE s.
Proof.
  split.
  - intros [[enum prop] (H1 & H2 & rest & -> & _)%PROPERTY_RE_match_lang].
    exists (enum +:+ prop), rest. split; [by rewrite sapp_assoc|by apply in_Seq].
  - intros (s & rest & -> & H).
    inversion H as [| | | | | |? ? enum prop H1 H2]; subst.
    apply in_group1 in H1 as (tag & ds & Htag & Hne & Hds & ->).
    apply in_group2 in H2 as (t & -> & Ht & Hn).
    destruct (dot_star_inv (t +:+ rest)) as (Hn' & rest' & Hrest' & Hend).
    exists (tag +:+ ds, String "." (Re.dot_star (t +:+ rest))).
    apply PROPERTY_RE_match_spec.
    exists tag, ds, (Re.dot_star (t +:+ rest)), rest'. split_and!; try done.
    + destruct t as [|c t]; [done|]. simpl in Hn.
      apply andb_true_iff in Hn as [Hc _]. unfold not_newline in Hc.
      apply negb_true_iff in Hc. rewrite sapp_cons. simpl. by rewrite Hc.
    + rewrite !sapp_assoc, !sapp_cons. by rewrite <-Hrest'.
Qed.

End regex_facts.

(** ** The loop of [__add__] *)

Section add_facts.

Implicit Types (lines : list string) (m : properties_t) (self : TruffleArchiveParticipant).

Lemma bad_line_no_match line :
  bad_line line ↔ PyStr.startswith line "#" = false ∧ Re.PROPERTY_RE_match line = None.
Proof.
  unfold bad_line. split; intros [Hc Hm]; (split; [done|]).
  - destruct (Re.PROPERTY_RE_match line) as [[enum prop]|] eqn:E; [|done].
    apply PROPERTY_RE_match_spec in E. by destruct (Hm enum prop).
  - intros enum prop H%PROPERTY_RE_match_spec. congruence.
Qed.

Lemma good_line_match line :
  good_line line ↔
  PyStr.startswith line "#" = true ∨ is_Some (Re.PROPERTY_RE_match line).
Proof.
  unfold good_line. split; (intros [Hc|Hm]; [by left|right]).
  - destruct Hm as (enum & prop & H%PROPERTY_RE_match_spec). eauto.
  - destruct Hm as [[enum prop] H%PROPERTY_RE_match_spec]. eauto.
Qed.

Lemma good_or_bad line : good_line line ∨ bad_line line.
Proof.
  rewrite good_line_match, bad_line_no_match.
  destruct (PyStr.startswith line "#"); [by left; left|].
  destruct (Re.PROPERTY_RE_match line); [left; right; eauto|by right].
Qed.

(** The first bad line stops the loop with the format error. *)
Lemma add_lines_bad arcname lines m :
  Exists bad_line lines →
  ∃ line, line ∈ lines ∧ bad_line line ∧
          add_lines arcname lines m = Raise (format_error arcname line).
Proof.
  revert m. induction lines as [|line lines IH]; intros m H; [by inversion H|].
  simpl. destruct (PyStr.startswith line "#") eqn:Hc.
  - inversion H as [?? Hb|?? Hl]; subst.
    { apply bad_line_no_match in Hb as [? _]. congruence. }
    destruct (IH m Hl) as (l & ? & ? & ?). exists l. split_and!; [by right|done..].
  - destruct (Re.PROPERTY_RE_match line) as [[enum prop]|] eqn:Hm.
    + inversion H as [?? Hb|?? Hl]; subst.
      { apply bad_line_no_match in Hb as [_ ?]. congruence. }
      destruct (IH (setdefault_append enum prop m) Hl) as (l & ? & ? & ?).
      exists l. split_and!; [by right|done..].
    + exists line. split_and!; [by left| |done]. by apply bad_line_no_match.
Qed.

Lemma add_lines_good arcname lines m :
  Forall good_line lines → ∃ properties, add_lines arcname lines m = Return properties.
Proof.
  revert m. induction lines as [|line lines IH]; intros m H; [by eexists|].
  apply Forall_cons in H as [Hl H]. simpl.
  destruct (PyStr.startswith line "#") eqn:Hc; [by apply IH|].
  apply good_line_match in Hl as [?|[[enum prop] Hm]]; [congruence|].
  rewrite Hm. by apply IH.
Qed.

(** Comment lines leave no trace in the loop. *)
Lemma add_lines_without_comments arcname lines m :
  add_lines arcname lines m = add_lines arcname (without_comments lines) m.
Proof.
  revert m. unfold without_comments.
  induction lines as [|line lines IH]; intros m; [done|].
  destruct (PyStr.startswith line "#") eqn:Hc.
  - rewrite filter_cons_False by congruence. simpl. by rewrite Hc.
  - rewrite filter_cons_True by done. simpl. rewrite Hc.
    by destruct (Re.PROPERTY_RE_match line) as [[enum prop]|].
Qed.

(** *** Monadic steps *)

Lemma bind_Return {A B} (m : M A) (k : A → M B) self a self' :
  m self = (Return a, self') → (m ≫= k) self = k a self'.
Proof. intros H. unfold mbind, M_bind. by rewrite H. Qed.

Lemma bind_Raise {A B} (m : M A) (k : A → M B) self e self' :
  m self = (Raise e, self') → (m ≫= k) self = (Raise e, self').
Proof. intros H. unfold mbind, M_bind. by rewrite H. Qed.

(** *** [__add__] and the loop of the archive writer *)

Lemma add_arc arcname contents self :
  arc (__add__ arcname contents self).2 = arc self.
Proof.
  unfold __add__. destruct (_truffle_metainf_file arcname); [|done].
  by destruct (add_lines _ _ _).
Qed.

Lemma add_all_cons arcname contents entries self :
  add_all ((arcname, contents) :: entries) self
  = match __add__ arcname contents self with
    | (Return handled, self1) =>
        match add_all entries self1 with
        | (Return flags, self2) => (Return (handled :: flags), self2)
        | (Raise e, self2) => (Raise e, self2)
        end
    | (Raise e, self1) => (Raise e, self1)
    end.
Proof. reflexivity. Qed.

Lemma add_all_arc entries self : arc (add_all entries self).2 = arc self.
Proof.
  revert self. induction entries as [|[arcname contents] entries IH]; intros self.
  - done.
  - rewrite add_all_cons. pose proof (add_arc arcname contents self) as Ha.
    destruct (__add__ arcname contents self) as [[handled|e] self1]; [|done].
    pose proof (IH self1) as Hb.
    destruct (add_all entries self1) as [[flags|e] self2]; simpl in *; congruence.
Qed.

Lemma add_all_Raise before arcname contents after self :
  (∀ self1, ∃ e, __add__ arcname contents self1 = (Raise e, self1)) →
  ∃ e self', add_all (before ++ (arcname, contents) :: after) self = (Raise e, self').
Proof.
  intros Hr. revert self.
  induction before as [|[arcname' contents'] before IH]; intros self.
  - destruct (Hr self) as [e He]. exists e, self.
    rewrite app_nil_l, add_all_cons. by rewrite He.
  - rewrite <-app_comm_cons, add_all_cons.
    destruct (__add__ arcname' contents' self) as [[handled|e] self1] eqn:E.
    + destruct (IH self1) as (e & self' & He). exists e, self'. by rewrite He.
    + by exists e, self1.
Qed.

Lemma add_all_ext before arcname contents contents' after self :
  (∀ self1, __add__ arcname contents self1 = __add__ arcname contents' self1) →
  add_all (before ++ (arcname, contents) :: after) self
  = add_all (before ++ (arcname, contents') :: after) self.
Proof.
  intros Heq. revert self.
  induction before as [|[arcname0 contents0] before IH]; intros self.
  - rewrite !app_nil_l, !add_all_cons. by rewrite Heq.
  - rewrite <-!app_comm_cons, !add_all_cons.
    destruct (__add__ arcname0 contents0 self) as [[handled|e] self1]; [|done].
    by rewrite IH.
Qed.

End add_facts.

Section session_facts.

Variable linesep : string.

Lemma session_unfold entries self :
  session linesep entries self
  = (flags ← add_all entries; __closing__ linesep;; mret flags)
      {| settings := ∅; arc := {| zf := [] |} |}.
Proof. done. Qed.

(** An [add] that raises ends the session before anything is written. *)
Lemma session_add_Raise before arcname contents after self :
  (∀ self1, ∃ e, __add__ arcname contents self1 = (Raise e, self1)) →
  ∃ e self', session linesep (before ++ (arcname, contents) :: after) self
             = (Raise e, self') ∧ zf (arc self') = [].
Proof.
  intros Hr. rewrite session_unfold.
  set (self1 := {| settings := ∅; arc := {| zf := [] |} |}).
  destruct (add_all_Raise before arcname contents after self1 Hr) as (e & self' & He).
  exists e, self'. split; [by erewrite bind_Raise|].
  pose proof (add_all_arc (before ++ (arcname, contents) :: after) self1) as Ha.
  rewrite He in Ha. simpl in Ha. by rewrite Ha.
Qed.

End session_facts.

(** ** Entries that are not recognized *)

(** C5: for every entry name other than [META-INF/truffle/language] and
    [META-INF/truffle/instrument], and every content, [add] returns false
    (not handled) and leaves the participant, its settings table included,
    exactly as it was. *)
Theorem C5_add_unrecognized arcname contents self :
  arcname ≠ "META-INF/truffle/language" →
  arcname ≠ "META-INF/truffle/instrument" →
  _truffle_metainf_file arcname = None ∧
  __add__ arcname contents self = (Return false, self) ∧
  settings (__add__ arcname contents self).2 = settings self.
Proof.
  intros Hl Hi.
  assert (_truffle_metainf_file arcname = None) as Hnone.
  { unfold _truffle_metainf_file. by rewrite !decide_False. }
  unfold __add__. by rewrite Hnone.
Qed.

Lemma C5_add_unrecognized_witness :
  __add__ "META-INF/MANIFEST.MF" "Manifest-Version: 1.0"
    {| settings := {[ "language" := [ {[ "language1" := [".a"] ]} ] ]}; arc := {| zf := [] |} |}
  = (Return false,
     {| settings := {[ "language" := [ {[ "language1" := [".a"] ]} ] ]}; arc := {| zf := [] |} |}).
Proof.
  apply (C5_add_unrecognized "META-INF/MANIFEST.MF" "Manifest-Version: 1.0");
    discriminate.
Defined.

(** C8: for every entry name and every content, the operation for source
    entries returns false and changes nothing. *)
Theorem C8_addsrc_false arcname contents self :
  __addsrc__ arcname contents self = (Return false, self).
Proof. reflexivity. Qed.

(** ** Recognized entries *)

Section recognized.

Lemma add_recognized arcname kind contents self :
  _truffle_metainf_file arcname = Some kind →
  __add__ arcname contents self
  = match add_lines arcname (content_lines contents) ∅ with
    | Return properties =>
        (Return true,
         {| settings := setdefault_append kind properties (settings self);
            arc := arc self |})
    | Raise e => (Raise e, self)
    end.
Proof. intros H. unfold __add__. by rewrite H. Qed.

End recognized.

Lemma bad_line_language_x : bad_line "language.x".
Proof. by apply bad_line_no_match. Qed.

Lemma good_line_language1_x : good_line "language1.x".
Proof. apply good_line_match. right. by eexists. Qed.

(** ** Blank content and blank lines *)

Section blank.

Implicit Types s t w : string.

Lemma rstrip_cons c t :
  PyStr.rstrip t ≠ EmptyString → PyStr.rstrip (String c t) = String c (PyStr.rstrip t).
Proof. intros H. simpl. by destruct (PyStr.rstrip t). Qed.

(** Stripping leaves the inside of the content alone. *)
Lemma strip_interior s w t :
  all_chars Ascii.is_space s = false → all_chars Ascii.is_space t = false →
  PyStr.strip (s +:+ nl +:+ w +:+ nl +:+ t)
  = PyStr.lstrip s +:+ nl +:+ w +:+ nl +:+ PyStr.rstrip t.
Proof.
  intros Hs Ht. unfold PyStr.strip.
  rewrite lstrip_app by by apply lstrip_not_all_space.
  apply rstrip_not_all_space in Ht.
  assert (PyStr.rstrip (nl +:+ t) = nl +:+ PyStr.rstrip t) as H1.
  { by apply rstrip_cons. }
  assert (PyStr.rstrip (w +:+ nl +:+ t) = w +:+ nl +:+ PyStr.rstrip t) as H2.
  { rewrite rstrip_app; rewrite H1; done. }
  assert (PyStr.rstrip (nl +:+ w +:+ nl +:+ t) = nl +:+ w +:+ nl +:+ PyStr.rstrip t) as H3.
  { unfold nl at 1 3. rewrite !sapp_cons, !sapp_nil_l. rewrite rstrip_cons; rewrite H2; [done|].
    destruct w; done. }
  rewrite rstrip_app; rewrite H3; [done|]. done.
Qed.

Lemma blank_is_bad w : all_chars Ascii.is_space w = true → bad_line w.
Proof.
  intros Hw. apply bad_line_no_match. split; [|by apply PROPERTY_RE_match_blank].
  destruct w as [|c w]; [done|]. rewrite startswith_cons.
  simpl in Hw. apply andb_true_iff in Hw as [Hc _].
  rewrite bool_decide_eq_false_2; [done|]. by intros <-.
Qed.

(** C10: a recognized entry whose content is empty or only whitespace makes
    [add] raise the format error on the one empty line that is left after
    stripping, and records nothing; and so does a blank line between two
    parts of the content that are not blank. *)
Theorem C10_blank_is_fatal arcname kind self :
  _truffle_metainf_file arcname = Some kind →
  (∀ contents,
     all_chars Ascii.is_space contents = true →
     content_lines contents = [EmptyString] ∧
     __add__ arcname contents self = (Raise (format_error arcname EmptyString), self)) ∧
  (∀ s w t,
     all_chars Ascii.is_space s = false →
     all_chars Ascii.is_space t = false →
     all_chars Ascii.is_space w = true → all_chars not_newline w = true →
     w ∈ content_lines (s +:+ nl +:+ w +:+ nl +:+ t) ∧
     ∃ line, bad_line line ∧
       __add__ arcname (s +:+ nl +:+ w +:+ nl +:+ t) self
       = (Raise (format_error arcname line), self)).
Proof.
  intros Hk. split.
  - intros contents Hc.
    assert (content_lines contents = [EmptyString]) as Hl.
    { unfold content_lines. by rewrite strip_all_space. }
    split; [done|]. rewrite (add_recognized _ kind) by done. by rewrite Hl.
  - intros s w t Hs Ht Hw Hn.
    assert (w ∈ content_lines (s +:+ nl +:+ w +:+ nl +:+ t)) as Hin.
    { unfold content_lines. rewrite strip_interior by done.
      unfold nl. rewrite !sapp_cons, !sapp_nil_l, !split_app.
      rewrite (split_no_sep _ w) by done. set_solver. }
    split; [done|].
    destruct (add_lines_bad arcname (content_lines (s +:+ nl +:+ w +:+ nl +:+ t)) ∅)
      as (line & _ & Hb & Hr).
    { apply Exists_exists. eauto using blank_is_bad. }
    exists line. split; [done|]. rewrite (add_recognized _ kind) by done. by rewrite Hr.
Qed.

End blank.

Lemma C10_blank_is_fatal_witness :
  __add__ "META-INF/truffle/instrument" ("  " +:+ nl)
    {| settings := ∅; arc := {| zf := [] |} |}
  = (Raise (format_error "META-INF/truffle/instrument" EmptyString),
     {| settings := ∅; arc := {| zf := [] |} |}) ∧
  ∃ line, bad_line line ∧
    __add__ "META-INF/truffle/language" ("language1.a" +:+ nl +:+ " " +:+ nl +:+ "language2.b")
      {| settings := ∅; arc := {| zf := [] |} |}
    = (Raise (format_error "META-INF/truffle/language" line),
       {| settings := ∅; arc := {| zf := [] |} |}).
Proof.
  split.
  - apply (C10_blank_is_fatal "META-INF/truffle/instrument" "instrument" _ eq_refl).
    reflexivity.
  - apply (C10_blank_is_fatal "META-INF/truffle/language" "language" _ eq_refl);
      reflexivity.
Defined.

(** ** Comment lines *)

Section comments.

Lemma without_comments_insert before cmt after :
  PyStr.startswith cmt "#" = true →
  without_comments (before ++ cmt :: after) = without_comments (before ++ after).
Proof.
  intros Hc. unfold without_comments.
  rewrite !filter_app, filter_cons_False; [done|congruence].
Qed.

End comments.

(** ** Numbering *)

Section numbering.

Implicit Types (kind : string) (c : N) (groups : list (list string)).

Lemma numbered_from_nil kind c : numbered_from kind c [] = [].
Proof. done. Qed.

Lemma numbered_from_cons kind c group groups :
  numbered_from kind c (group :: groups)
  = group_lines kind c group ++ numbered_from kind (c + 1) groups.
Proof.
  unfold numbered_from. rewrite imap_cons. simpl. rewrite N.add_0_r. f_equal.
  f_equal. apply imap_ext. intros i g _. simpl.
  by replace (c + 1 + N.of_nat i)%N with (c + N.of_nat (S i))%N by lia.
Qed.

Lemma numbered_from_app kind c groups1 groups2 :
  numbered_from kind c (groups1 ++ groups2)
  = numbered_from kind c groups1
    ++ numbered_from kind (c + N.of_nat (length groups1)) groups2.
Proof.
  revert c. induction groups1 as [|g groups1 IH]; intros c.
  - simpl. by rewrite N.add_0_r.
  - rewrite <-app_comm_cons, !numbered_from_cons, IH, <-app_assoc. do 3 f_equal.
    simpl. lia.
Qed.

Lemma numbered_from_middle kind c groups1 group groups2 :
  numbered_from kind c (groups1 ++ group :: groups2)
  = numbered_from kind c groups1
    ++ group_lines kind (c + N.of_nat (length groups1)) group
    ++ numbered_from kind (c + N.of_nat (S (length groups1))) groups2.
Proof.
  rewrite numbered_from_app, numbered_from_cons. do 3 f_equal. lia.
Qed.

(** A line of the merged entry is the new key of a group, made of the kind
    and the position of the group counted from [c], followed by one of the
    suffixes of that group. *)
Lemma elem_of_numbered_from kind c groups line :
  line ∈ numbered_from kind c groups ↔
  ∃ i group prop,
    groups !! i = Some group ∧ prop ∈ group ∧
    line = (kind +:+ PyStr.str (c + N.of_nat i)) +:+ prop.
Proof.
  unfold numbered_from. rewrite list_elem_of_join. split.
  - intros (l & Hline & Hl). apply elem_of_lookup_imap in Hl as (i & group & -> & Hi).
    apply list_elem_of_fmap in Hline as (prop & -> & Hprop). eauto 6.
  - intros (i & group & prop & Hi & Hprop & ->).
    exists (group_lines kind (c + N.of_nat i) group). split.
    + by apply list_elem_of_fmap_2.
    + by apply (elem_of_lookup_imap_2
                  (λ i group, group_lines kind (c + N.of_nat i) group) groups group i).
Qed.

End numbering.

(** ** The loops of [__closing__] *)

Section sorted_keys.

Implicit Types (l : list string) (m : properties_t).

Lemma sorted_Permutation l : PyStr.sorted l ≡ₚ l.
Proof. apply merge_sort_Permutation. Qed.

Lemma sorted_StronglySorted l : StronglySorted String.le (PyStr.sorted l).
Proof. apply StronglySorted_merge_sort; apply _. Qed.

Lemma elem_of_viewkeys m enum : enum ∈ viewkeys m ↔ is_Some (m !! enum).
Proof.
  unfold viewkeys. rewrite list_elem_of_fmap. split.
  - intros ([e props] & -> & H%elem_of_map_to_list). eauto.
  - intros [props H]. exists (enum, props). split; [done|].
    by apply elem_of_map_to_list.
Qed.

Lemma NoDup_viewkeys m : NoDup (viewkeys m).
Proof. apply NoDup_fst_map_to_list. Qed.

Lemma elem_of_sorted_keys m enum :
  enum ∈ PyStr.sorted (viewkeys m) ↔ is_Some (m !! enum).
Proof. by rewrite sorted_Permutation, elem_of_viewkeys. Qed.

Lemma length_sorted_keys m : length (PyStr.sorted (viewkeys m)) = size m.
Proof.
  rewrite sorted_Permutation. unfold viewkeys.
  by rewrite length_fmap, length_map_to_list.
Qed.

Lemma sorted_keys_tagged kind m :
  tagged kind m ↔
  Forall (λ enum, PyStr.startswith enum kind = true) (PyStr.sorted (viewkeys m)).
Proof.
  rewrite Forall_forall. unfold tagged, map_Forall. split.
  - intros H enum [props Hp]%elem_of_sorted_keys. by eapply H.
  - intros H enum props Hp. apply H, elem_of_sorted_keys. eauto.
Qed.

End sorted_keys.

Section closing_loops.

Implicit Types (kind : string) (m : properties_t) (enums lines : list string) (c : N).

Lemma closing_enums_tagged kind m enums lines c :
  Forall (λ enum, is_Some (m !! enum)) enums →
  Forall (λ enum, PyStr.startswith enum kind = true) enums →
  closing_enums kind m enums lines c
  = Return (lines ++ numbered_from kind c ((λ enum, default [] (m !! enum)) <$> enums),
            (c + N.of_nat (length enums))%N).
Proof.
  revert lines c. induction enums as [|enum enums IH]; intros lines c Hin Htag.
  - simpl. by rewrite app_nil_r, N.add_0_r.
  - apply Forall_cons in Hin as [[props Hp] Hin].
    apply Forall_cons in Htag as [Ht Htag].
    simpl. rewrite Ht, Hp. rewrite IH by done.
    rewrite numbered_from_cons, <-app_assoc. simpl.
    do 2 f_equal. lia.
Qed.

Lemma closing_enums_untagged kind m enums lines c :
  Forall (λ enum, is_Some (m !! enum)) enums →
  Exists (λ enum, PyStr.startswith enum kind = false) enums →
  closing_enums kind m enums lines c = Raise (AssertionError EmptyString).
Proof.
  revert lines c. induction enums as [|enum enums IH]; intros lines c Hin Hex.
  - by inversion Hex.
  - apply Forall_cons in Hin as [[props Hp] Hin]. simpl.
    destruct (PyStr.startswith enum kind) eqn:Ht; [|done]. rewrite Hp.
    apply IH; [done|]. inversion Hex; subst; [congruence|done].
Qed.

Lemma sorted_keys_lookup m :
  Forall (λ enum, is_Some (m !! enum)) (PyStr.sorted (viewkeys m)).
Proof. apply Forall_forall. intros enum. by rewrite elem_of_sorted_keys. Qed.

Lemma merged_groups_cons m (propertiesList : list properties_t) :
  merged_groups (m :: propertiesList) = batch_groups m ++ merged_groups propertiesList.
Proof. done. Qed.

Lemma length_batch_groups m : length (batch_groups m) = size m.
Proof. unfold batch_groups. by rewrite length_fmap, length_sorted_keys. Qed.

Lemma closing_enums_batch kind m lines c :
  tagged kind m →
  closing_enums kind m (PyStr.sorted (viewkeys m)) lines c
  = Return (lines ++ numbered_from kind c (batch_groups m),
            (c + N.of_nat (length (batch_groups m)))%N).
Proof.
  intros Hm. rewrite closing_enums_tagged;
    [|apply sorted_keys_lookup|by apply sorted_keys_tagged].
  unfold batch_groups. by rewrite length_fmap.
Qed.

Lemma closing_batches_tagged kind (propertiesList : list properties_t) lines c :
  Forall (tagged kind) propertiesList →
  closing_batches kind propertiesList lines c
  = Return (lines ++ numbered_from kind c (merged_groups propertiesList),
            (c + N.of_nat (length (merged_groups propertiesList)))%N).
Proof.
  revert lines c. induction propertiesList as [|m ms IH]; intros lines c H.
  - simpl. by rewrite app_nil_r, N.add_0_r.
  - apply Forall_cons in H as [Hm Hms]. simpl.
    rewrite closing_enums_batch by done. rewrite IH by done.
    rewrite merged_groups_cons, numbered_from_app, length_app, <-app_assoc.
    do 2 f_equal. lia.
Qed.

Lemma closing_batches_untagged kind (propertiesList : list properties_t) lines c :
  ¬ Forall (tagged kind) propertiesList →
  closing_batches kind propertiesList lines c = Raise (AssertionError EmptyString).
Proof.
  revert lines c. induction propertiesList as [|m ms IH]; intros lines c H.
  - by destruct H.
  - simpl. destruct (decide (tagged kind m)) as [Hm|Hm].
    + rewrite closing_enums_batch by done.
      apply IH. contradict H. by apply Forall_cons.
    + rewrite closing_enums_untagged; [done|apply sorted_keys_lookup|].
      rewrite sorted_keys_tagged in Hm. apply not_Forall_Exists in Hm; [|apply _].
      eapply Exists_impl; [done|]. simpl. intros enum. by destruct (PyStr.startswith _ _).
Qed.

Variable linesep : string.

Lemma closing_items_cons_tagged item items self :
  tagged_item item →
  closing_items linesep (item :: items) self
  = closing_items linesep items
      {| settings := settings self;
         arc := {| zf := zf (arc self) ++ [merged_entry linesep item] |} |}.
Proof.
  destruct item as [kind ms]. unfold tagged_item. simpl. intros H.
  unfold mbind at 1, M_bind at 1, lift.
  rewrite closing_batches_tagged by done. by rewrite app_nil_l.
Qed.

Lemma closing_items_cons_untagged item items self :
  ¬ tagged_item item →
  closing_items linesep (item :: items) self = (Raise (AssertionError EmptyString), self).
Proof.
  destruct item as [kind ms]. unfold tagged_item. simpl. intros H.
  unfold mbind at 1, M_bind at 1, lift.
  by rewrite closing_batches_untagged.
Qed.

Lemma closing_items_tagged items self :
  Forall tagged_item items →
  closing_items linesep items self
  = (Return tt,
     {| settings := settings self;
        arc := {| zf := zf (arc self) ++ (merged_entry linesep <$> items) |} |}).
Proof.
  revert self. induction items as [|item items IH]; intros self H.
  - simpl. rewrite app_nil_r. by destruct self as [? []].
  - apply Forall_cons in H as [Hi H]. rewrite closing_items_cons_tagged by done.
    rewrite IH by done. simpl. by rewrite <-app_assoc.
Qed.

Lemma closing_items_untagged written item items self :
  Forall tagged_item written → ¬ tagged_item item →
  closing_items linesep (written ++ item :: items) self
  = (Raise (AssertionError EmptyString),
     {| settings := settings self;
        arc := {| zf := zf (arc self) ++ (merged_entry linesep <$> written) |} |}).
Proof.
  revert self. induction written as [|w written IH]; intros self H Hi.
  - rewrite app_nil_l, closing_items_cons_untagged by done. simpl.
    rewrite app_nil_r. by destruct self as [? []].
  - apply Forall_cons in H as [Hw H].
    rewrite <-app_comm_cons, closing_items_cons_tagged by done.
    rewrite IH by done. simpl. by rewrite <-app_assoc.
Qed.

End closing_loops.

Lemma Forall_or_first {A} (P : A → Prop) `{∀ x, Decision (P x)} (l : list A) :
  Forall P l ∨ ∃ l1 x l2, l = l1 ++ x :: l2 ∧ Forall P l1 ∧ ¬ P x.
Proof.
  induction l as [|x l IH]; [by left|].
  destruct (decide (P x)) as [Hx|Hx].
  - destruct IH as [IH|(l1 & y & l2 & -> & H1 & Hy)].
    + left. by apply Forall_cons.
    + right. exists (x :: l1), y, l2. split_and!; [done| |done]. by apply Forall_cons.
  - right. exists [], x, l. split_and!; [done|apply Forall_nil_2|done].
Qed.

(** ** The merged output *)

Section merged_output.

Variable linesep : string.

Implicit Types (kind arcname : string) (self : TruffleArchiveParticipant).

Lemma metainf_file_arcname arcname kind :
  _truffle_metainf_file arcname = Some kind → arcname = "META-INF/truffle/" +:+ kind.
Proof.
  unfold _truffle_metainf_file. intros H.
  repeat case_decide; by simplify_eq.
Qed.

Lemma settings_tagged_items self :
  (∀ kind propertiesList,
     settings self !! kind = Some propertiesList → Forall (tagged kind) propertiesList) →
  Forall tagged_item (map_to_list (settings self)).
Proof.
  intros H. apply Forall_forall. intros [kind ms] Hin%elem_of_map_to_list.
  by apply H.
Qed.

(** C7: when the group keys of the settings table carry the tag of their
    kind, [close] returns and, for every kind of the table, has written one
    entry under [META-INF/truffle/<kind>]: the lines [<kind><index><suffix>]
    of the groups of the kind, the index being the position of the group
    counted from 1, joined by the line separator and followed by one more
    line separator. *)
Theorem C7_rewritten_entry self kind propertiesList :
  (∀ kind' propertiesList',
     settings self !! kind' = Some propertiesList' →
     Forall (tagged kind') propertiesList') →
  settings self !! kind = Some propertiesList →
  ∃ lines before after,
    __closing__ linesep self
    = (Return tt,
       {| settings := settings self;
          arc := {| zf := zf (arc self) ++ before
                          ++ ("META-INF/truffle/" +:+ kind,
                              PyStr.join linesep lines +:+ linesep) :: after |} |}) ∧
    (("META-INF/truffle/" +:+ kind) ∉ (before ++ after).*1) ∧
    (S (length (before ++ after)) = size (settings self)) ∧
    lines = numbered_lines kind (merged_groups propertiesList) ∧
    ∀ line, line ∈ lines ↔
      ∃ i group prop,
        merged_groups propertiesList !! i = Some group ∧ prop ∈ group ∧
        line = (kind +:+ PyStr.str (1 + N.of_nat i)) +:+ prop.
Proof.
  intros Htag Hkind.
  pose proof (NoDup_fst_map_to_list (settings self)) as Hnd.
  pose proof (length_map_to_list (settings self)) as Hlen.
  assert ((kind, propertiesList) ∈ map_to_list (settings self)) as Hin.
  { by apply elem_of_map_to_list. }
  apply list_elem_of_split in Hin as (items1 & items2 & Hitems).
  exists (numbered_lines kind (merged_groups propertiesList)),
    (merged_entry linesep <$> items1), (merged_entry linesep <$> items2).
  split_and!.
  - unfold __closing__. rewrite closing_items_tagged by by apply settings_tagged_items.
    by rewrite Hitems, fmap_app, fmap_cons.
  - rewrite Hitems, fmap_app, fmap_cons in Hnd. apply NoDup_app in Hnd as (_ & H1 & H2).
    apply NoDup_cons in H2 as [H2 _]. rewrite fmap_app, <-!list_fmap_compose.
    intros [Hbad|Hbad]%elem_of_app;
      apply list_elem_of_fmap in Hbad as ([k ms] & Heq & Hk); simpl in Heq;
      apply (inj (String.app _)) in Heq as <-.
    + apply (H1 kind); [by apply (list_elem_of_fmap_2' fst _ (kind, ms))|left].
    + apply H2. by apply (list_elem_of_fmap_2' fst _ (kind, ms)).
  - rewrite <-Hlen, Hitems, !length_app, !length_fmap. simpl. lia.
  - done.
  - intros line. apply elem_of_numbered_from.
Qed.

Lemma foldl_setdefault_append kind (propertiesList : list properties_t)
    (s : gmap string (list properties_t)) :
  propertiesList ≠ [] →
  foldl (λ s properties, setdefault_append kind properties s) s propertiesList
  = <[kind := default [] (s !! kind) ++ propertiesList]> s.
Proof.
  revert s. induction propertiesList as [|m ms IH]; intros s Hne; [done|].
  destruct ms as [|m' ms]; [done|].
  change (foldl ?f s (m :: ?l)) with (foldl f (setdefault_append kind m s) l).
  rewrite IH by done. unfold setdefault_append.
  rewrite lookup_insert_eq, insert_insert_eq. simpl. by rewrite <-app_assoc.
Qed.

Lemma add_all_kind arcname kind contentsList (propertiesList : list properties_t) self :
  _truffle_metainf_file arcname = Some kind →
  Forall2 (parses_to arcname) contentsList propertiesList →
  add_all ((arcname,.) <$> contentsList) self
  = (Return (replicate (length contentsList) true),
     {| settings := foldl (λ s properties, setdefault_append kind properties s)
                      (settings self) propertiesList;
        arc := arc self |}).
Proof.
  intros Hk H. revert self. induction H as [|contents m cs ms Hm H IH]; intros self.
  - by destruct self.
  - rewrite fmap_cons, add_all_cons, (add_recognized _ kind) by done.
    unfold parses_to in Hm. rewrite Hm, IH. done.
Qed.

Lemma session_kind arcname kind contentsList (propertiesList : list properties_t) self :
  _truffle_metainf_file arcname = Some kind →
  Forall2 (parses_to arcname) contentsList propertiesList →
  contentsList ≠ [] →
  session linesep ((arcname,.) <$> contentsList) self
  = match closing_batches kind propertiesList [] 1%N with
    | Return (lines, _) =>
        (Return (replicate (length contentsList) true),
         {| settings := {[kind := propertiesList]};
            arc := {| zf := [(arcname, PyStr.join linesep lines +:+ linesep)] |} |})
    | Raise e =>
        (Raise e, {| settings := {[kind := propertiesList]}; arc := {| zf := [] |} |})
    end.
Proof.
  intros Hk H Hne. rewrite session_unfold.
  erewrite bind_Return; [|by apply (add_all_kind _ kind _ propertiesList)].
  rewrite foldl_setdefault_append.
  2:{ intros ->. apply Forall2_nil_inv_r in H. done. }
  cbn [settings arc]. rewrite lookup_empty, app_nil_l, insert_empty.
  unfold mbind at 1, M_bind at 1, __closing__. cbn [settings arc].
  rewrite map_to_list_singleton. simpl.
  unfold mbind, M_bind, lift. rewrite <-(metainf_file_arcname arcname kind) by done.
  by destruct (closing_batches kind propertiesList [] 1%N) as [[lines c]|e].
Qed.

(** C1: in a session of [add]s of one kind, the batches are merged in the
    order in which they were added, the group keys of each batch in
    ascending order, and the groups get the numbers 1, 2, ... across all
    the batches: the merged entry holds the lines of [numbered_lines] for
    the groups of [merged_groups]. *)
Theorem C1_merge_order arcname kind contentsList (propertiesList : list properties_t) self :
  _truffle_metainf_file arcname = Some kind →
  Forall2 (parses_to arcname) contentsList propertiesList →
  Forall (tagged kind) propertiesList →
  contentsList ≠ [] →
  session linesep ((arcname,.) <$> contentsList) self
  = (Return (replicate (length contentsList) true),
     {| settings := {[kind := propertiesList]};
        arc := {| zf := [(arcname,
                          PyStr.join linesep
                            (numbered_lines kind (merged_groups propertiesList))
                          +:+ linesep)] |} |}) ∧
  merged_groups propertiesList
  = mjoin ((λ properties,
              (λ enum, default [] (properties !! enum))
                <$> PyStr.sorted (viewkeys properties)) <$> propertiesList) ∧
  Forall (λ properties,
            StronglySorted String.le (PyStr.sorted (viewkeys properties)) ∧
            PyStr.sorted (viewkeys properties) ≡ₚ viewkeys properties) propertiesList ∧
  numbered_lines kind (merged_groups propertiesList)
  = mjoin (imap (λ i group,
                   (λ prop, (kind +:+ PyStr.str (1 + N.of_nat i)) +:+ prop) <$> group)
                (merged_groups propertiesList)).
Proof.
  intros Hk H Htag Hne. split_and!; [|done| |done].
  - rewrite (session_kind _ kind _ propertiesList) by done.
    by rewrite closing_batches_tagged.
  - apply Forall_forall. intros m _.
    split; [apply sorted_StronglySorted|apply sorted_Permutation].
Qed.

End merged_output.

Lemma C1_merge_order_witness :
  session nl
    [("META-INF/truffle/language", "language1.a" +:+ nl +:+ "language2.b");
     ("META-INF/truffle/language", "language1.c")]
    {| settings := ∅; arc := {| zf := [] |} |}
  = (Return [true; true],
     {| settings :=
          {[ "language" := [ {[ "language1" := [".a"]; "language2" := [".b"] ]};
                             {[ "language1" := [".c"] ]} ] ]};
        arc := {| zf := [("META-INF/truffle/language",
                          "language1.a" +:+ nl +:+ "language2.b" +:+ nl
                          +:+ "language3.c" +:+ nl)] |} |}).
Proof.
  destruct (C1_merge_order nl "META-INF/truffle/language" "language"
              ["language1.a" +:+ nl +:+ "language2.b"; "language1.c"]
              [ {[ "language1" := [".a"]; "language2" := [".b"] ]};
                {[ "language1" := [".c"] ]} ]
              {| settings := ∅; arc := {| zf := [] |} |}) as [H _].
  - reflexivity.
  - repeat constructor; vm_compute; reflexivity.
  - by_evaluation.
  - discriminate.
  - exact H.
Defined.

Lemma C7_rewritten_entry_witness :
  ∃ before after,
    __closing__ nl
      {| settings :=
           {[ "language" := [ {[ "language7" := [".a"; ".b"] ]} ];
              "instrument" := [ {[ "instrument4" := [".x"] ]};
                                {[ "instrument4" := [".y"] ]} ] ]};
         arc := {| zf := [] |} |}
    = (Return tt,
       {| settings :=
            {[ "language" := [ {[ "language7" := [".a"; ".b"] ]} ];
               "instrument" := [ {[ "instrument4" := [".x"] ]};
                                 {[ "instrument4" := [".y"] ]} ] ]};
          arc := {| zf := before
                          ++ ("META-INF/truffle/instrument",
                              "instrument1.x" +:+ nl +:+ "instrument2.y" +:+ nl)
                             :: after |} |}).
Proof.
  destruct (C7_rewritten_entry nl
              {| settings :=
                   {[ "language" := [ {[ "language7" := [".a"; ".b"] ]} ];
                      "instrument" := [ {[ "instrument4" := [".x"] ]};
                                        {[ "instrument4" := [".y"] ]} ] ]};
                 arc := {| zf := [] |} |}
              "instrument"
              [ {[ "instrument4" := [".x"] ]}; {[ "instrument4" := [".y"] ]} ])
    as (lines & before & after & Hc & _ & _ & -> & _).
  - apply (bool_decide_unpack (map_Forall (λ kind ms, Forall (tagged kind) ms) _)).
    vm_compute. exact I.
  - vm_compute. reflexivity.
  - exists before, after. exact Hc.
Defined.

(** ** What a batch holds *)

Section batch_facts.

Implicit Types (lines : list string) (m properties : properties_t).

Lemma line_props_app enum lines1 lines2 :
  line_props enum (lines1 ++ lines2) = line_props enum lines1 ++ line_props enum lines2.
Proof. apply omap_app. Qed.

Lemma line_props_comment enum line lines :
  PyStr.startswith line "#" = true →
  line_props enum (line :: lines) = line_props enum lines.
Proof. intros H. unfold line_props. simpl. by rewrite H. Qed.

Lemma line_props_match enum line enum' prop lines :
  PyStr.startswith line "#" = false →
  Re.PROPERTY_RE_match line = Some (enum', prop) →
  line_props enum (line :: lines)
  = if decide (enum' = enum) then prop :: line_props enum lines
    else line_props enum lines.
Proof. intros H1 H2. unfold line_props. simpl. rewrite H1, H2. by case_decide. Qed.

(** The batch groups the suffixes by group key, each list in the order of
    the lines. *)
Lemma add_lines_lookup arcname lines m properties enum :
  add_lines arcname lines m = Return properties →
  properties !! enum
  = match line_props enum lines with
    | [] => m !! enum
    | props => Some (default [] (m !! enum) ++ props)
    end.
Proof.
  revert m. induction lines as [|line lines IH]; intros m H.
  - simpl in H. by simplify_eq.
  - simpl in H. destruct (PyStr.startswith line "#") eqn:Hc.
    { rewrite line_props_comment by done. by apply IH. }
    destruct (Re.PROPERTY_RE_match line) as [[enum' prop]|] eqn:Hm; [|done].
    rewrite (line_props_match _ _ enum' prop) by done.
    rewrite (IH _ H). unfold setdefault_append. case_decide as Heq.
    + subst enum'. rewrite lookup_insert_eq. simpl.
      destruct (line_props enum lines); [done|]. by rewrite <-app_assoc.
    + by rewrite lookup_insert_ne.
Qed.

Lemma elem_of_line_props enum line prop lines :
  line ∈ lines → PyStr.startswith line "#" = false →
  Re.PROPERTY_RE_match line = Some (enum, prop) →
  prop ∈ line_props enum lines.
Proof.
  intros Hin Hc Hm. unfold line_props. apply list_elem_of_omap. exists line.
  split; [done|]. rewrite Hc, Hm. by rewrite decide_True.
Qed.

Lemma add_lines_key arcname lines properties line enum prop :
  add_lines arcname lines ∅ = Return properties →
  line ∈ lines → PyStr.startswith line "#" = false →
  Re.PROPERTY_RE_match line = Some (enum, prop) →
  ∃ props, properties !! enum = Some props ∧ prop ∈ props.
Proof.
  intros H Hin Hc Hm. rewrite (add_lines_lookup _ _ _ _ enum H).
  pose proof (elem_of_line_props enum line prop lines Hin Hc Hm) as Hp.
  destruct (line_props enum lines) as [|p ps] eqn:E; [by apply elem_of_nil in Hp|].
  rewrite lookup_empty. eauto.
Qed.

Lemma batch_groups_split m enum props :
  m !! enum = Some props → ∃ groups1 groups2, batch_groups m = groups1 ++ props :: groups2.
Proof.
  intros Hp. assert (enum ∈ PyStr.sorted (viewkeys m)) as Hin.
  { apply elem_of_sorted_keys. eauto. }
  apply list_elem_of_split in Hin as (k1 & k2 & Hk).
  unfold batch_groups. rewrite Hk, fmap_app, fmap_cons, Hp. eauto.
Qed.

Lemma merged_groups_app (propertiesList1 propertiesList2 : list properties_t) :
  merged_groups (propertiesList1 ++ propertiesList2)
  = merged_groups propertiesList1 ++ merged_groups propertiesList2.
Proof. unfold merged_groups. by rewrite fmap_app, join_app. Qed.

Lemma length_merged_groups (propertiesList : list properties_t) :
  length (merged_groups propertiesList) = sum_list (size <$> propertiesList).
Proof.
  induction propertiesList as [|m ms IH]; [done|].
  rewrite merged_groups_cons, length_app, length_batch_groups, IH. done.
Qed.

End batch_facts.

(** ** A group key of the other kind *)

Section kind_mismatch.

Variable linesep : string.

Lemma closing_untagged self :
  ¬ Forall tagged_item (map_to_list (settings self)) →
  ∃ self', __closing__ linesep self = (Raise (AssertionError EmptyString), self').
Proof.
  intros H. unfold __closing__.
  destruct (Forall_or_first tagged_item (map_to_list (settings self)))
    as [?|(written & item & items & -> & Hw & Hi)]; [done|].
  eexists. by apply closing_items_untagged.
Qed.

(** C9: a line of the pattern whose group key does not carry the tag of the
    kind of its entry is accepted by [add], which returns true and records
    the key; it is [close] that raises, on its own assertion, and writes
    nothing for that kind. *)
Theorem C9_kind_mismatch arcname kind contents line enum prop self :
  _truffle_metainf_file arcname = Some kind →
  Forall good_line (content_lines contents) →
  line ∈ content_lines contents →
  PyStr.startswith line "#" = false →
  matches_pattern line enum prop →
  PyStr.startswith enum kind = false →
  ∃ properties self1 self2,
    is_Some (properties !! enum) ∧
    self1 = {| settings := setdefault_append kind properties (settings self);
               arc := arc self |} ∧
    __add__ arcname contents self = (Return true, self1) ∧
    __closing__ linesep self1 = (Raise (AssertionError EmptyString), self2) ∧
    session linesep [(arcname, contents)] self
    = (Raise (AssertionError EmptyString),
       {| settings := {[kind := [properties]]}; arc := {| zf := [] |} |}).
Proof.
  intros Hk Hgood Hin Hc Hm%PROPERTY_RE_match_spec Hother.
  destruct (add_lines_good arcname _ ∅ Hgood) as [properties Hp].
  destruct (add_lines_key _ _ _ _ _ _ Hp Hin Hc Hm) as (props & Hprops & _).
  assert (¬ tagged kind properties) as Hnt.
  { intros Ht. specialize (Ht enum props Hprops). simpl in Ht. congruence. }
  set (self1 := {| settings := setdefault_append kind properties (settings self);
                   arc := arc self |}).
  destruct (closing_untagged self1) as [self2 Hclose].
  { intros Hall. rewrite Forall_forall in Hall.
    assert ((kind, default [] (settings self !! kind) ++ [properties])
            ∈ map_to_list (settings self1)) as Hmem.
    { apply elem_of_map_to_list. apply lookup_insert_eq. }
    apply Hall in Hmem. unfold tagged_item in Hmem. simpl in Hmem.
    rewrite Forall_app, Forall_singleton in Hmem. by destruct Hmem. }
  exists properties, self1, self2. split_and!; [by eauto|done| |done|].
  - rewrite (add_recognized _ kind) by done. by rewrite Hp.
  - rewrite (session_kind linesep arcname kind [contents] [properties]);
      [|done|by apply Forall2_cons|done].
    rewrite closing_batches_untagged; [done|].
    by rewrite Forall_singleton.
Qed.

End kind_mismatch.

Lemma C9_kind_mismatch_witness :
  ∃ self1 self2,
    __add__ "META-INF/truffle/language" "instrument1.x"
      {| settings := ∅; arc := {| zf := [] |} |} = (Return true, self1) ∧
    __closing__ nl self1 = (Raise (AssertionError EmptyString), self2) ∧
    ∃ self3,
      session nl [("META-INF/truffle/language", "instrument1.x")]
        {| settings := ∅; arc := {| zf := [] |} |}
      = (Raise (AssertionError EmptyString), self3) ∧ zf (arc self3) = [].
Proof.
  destruct (C9_kind_mismatch nl "META-INF/truffle/language" "language"
              "instrument1.x" "instrument1.x" "instrument1" ".x"
              {| settings := ∅; arc := {| zf := [] |} |})
    as (properties & self1 & self2 & _ & _ & Hadd & Hclose & Hsession).
  - reflexivity.
  - apply Forall_singleton. apply good_line_match. right. by eexists.
  - by apply list_elem_of_singleton.
  - reflexivity.
  - by apply PROPERTY_RE_match_spec.
  - reflexivity.
  - exists self1, self2. split_and!; [exact Hadd|exact Hclose|].
    eexists. split; [exact Hsession|reflexivity].
Defined.

(** ** Decimal numerals *)

Section numerals.

Lemma all_chars_impl (P Q : ascii → bool) s :
  (∀ c, P c = true → Q c = true) → all_chars P s = true → all_chars Q s = true.
Proof.
  intros HPQ. induction s as [|c s IH]; simpl; [done|].
  intros [Hc Hs]%andb_true_iff. by rewrite (HPQ c Hc), IH.
Qed.

Lemma is_digit_pretty_N_char x : Re.is_digit (pretty_N_char x) = true.
Proof. unfold pretty_N_char. by repeat case_match. Qed.

Lemma pretty_N_go_digits x s :
  all_chars Re.is_digit s = true → all_chars Re.is_digit (pretty_N_go x s) = true.
Proof.
  revert s. induction (N.lt_wf_0 x) as [x _ IH]; intros s Hs.
  assert (x = 0 ∨ 0 < x)%N as [->|Hx] by lia; [by rewrite pretty_N_go_0|].
  rewrite pretty_N_go_step by done. apply IH; [by apply N.div_lt|].
  simpl. by rewrite is_digit_pretty_N_char.
Qed.

Lemma pretty_N_go_nonempty x s : s ≠ EmptyString → pretty_N_go x s ≠ EmptyString.
Proof.
  revert s. induction (N.lt_wf_0 x) as [x _ IH]; intros s Hs.
  assert (x = 0 ∨ 0 < x)%N as [->|Hx] by lia; [by rewrite pretty_N_go_0|].
  rewrite pretty_N_go_step by done. apply IH; [by apply N.div_lt|done].
Qed.

(** [str(n)] is a run of one or more digits. *)
Lemma str_digits n : all_chars Re.is_digit (PyStr.str n) = true.
Proof.
  unfold PyStr.str, pretty, pretty_N. case_decide; [done|].
  by apply pretty_N_go_digits.
Qed.

Lemma str_nonempty n : PyStr.str n ≠ EmptyString.
Proof.
  unfold PyStr.str, pretty, pretty_N. case_decide; [done|].
  rewrite pretty_N_go_step by lia. by apply pretty_N_go_nonempty.
Qed.

Lemma str_inj n1 n2 : PyStr.str n1 = PyStr.str n2 → n1 = n2.
Proof. apply (inj pretty). Qed.

Lemma digit_not_newline c : Re.is_digit c = true → not_newline c = true.
Proof.
  intros H. unfold not_newline. apply negb_true_iff, Ascii.eqb_neq. by intros ->.
Qed.

End numerals.

(** ** The lines of a merged entry, read again *)

Section merged_lines.

Implicit Types (kind enum prop line : string) (group : list string)
  (groups : list (list string)) (m : properties_t).

Lemma metainf_file_kind arcname kind :
  _truffle_metainf_file arcname = Some kind → is_kind kind.
Proof.
  unfold _truffle_metainf_file, is_kind. intros H.
  repeat case_decide; simplify_eq; auto.
Qed.

Lemma match_group_line kind n prop :
  is_kind kind → wf_prop prop →
  PyStr.startswith ((kind +:+ PyStr.str n) +:+ prop) "#" = false ∧
  Re.PROPERTY_RE_match ((kind +:+ PyStr.str n) +:+ prop)
  = Some (kind +:+ PyStr.str n, prop).
Proof.
  intros Hk (t & -> & Ht & Hn). split.
  - by destruct Hk as [-> | ->].
  - apply PROPERTY_RE_match_spec. exists kind, (PyStr.str n), t, EmptyString.
    split_and!; try done.
    + apply str_nonempty.
    + apply str_digits.
    + by left.
    + by rewrite sapp_nil_r.
Qed.

Lemma group_line_no_newline kind n prop :
  is_kind kind → wf_prop prop →
  all_chars not_newline ((kind +:+ PyStr.str n) +:+ prop) = true.
Proof.
  intros Hk (t & -> & Ht & Hn). rewrite !all_chars_app. simpl. rewrite Hn.
  rewrite (all_chars_impl _ _ _ digit_not_newline (str_digits n)).
  by destruct Hk as [-> | ->].
Qed.

Lemma key_inj kind n1 n2 :
  kind +:+ PyStr.str n1 = kind +:+ PyStr.str n2 → n1 = n2.
Proof. intros H%(inj (String.app kind)). by apply str_inj. Qed.

Lemma line_props_group_lines enum kind n group :
  is_kind kind → Forall wf_prop group →
  line_props enum (group_lines kind n group)
  = if decide (kind +:+ PyStr.str n = enum) then group else [].
Proof.
  intros Hk. induction 1 as [|prop group Hp Hg IH]; [by case_decide|].
  destruct (match_group_line kind n prop Hk Hp) as [Hc Hm].
  unfold group_lines in *. rewrite fmap_cons.
  rewrite (line_props_match _ _ _ _ _ Hc Hm), IH. by case_decide.
Qed.

Lemma line_props_numbered_other enum kind c groups :
  is_kind kind → Forall wf_group groups →
  (∀ i, i < length groups → enum ≠ kind +:+ PyStr.str (c + N.of_nat i)) →
  line_props enum (numbered_from kind c groups) = [].
Proof.
  intros Hk Hwf. revert c. induction Hwf as [|group groups [_ Hg] _ IH]; intros c Hne.
  - done.
  - rewrite numbered_from_cons, line_props_app, line_props_group_lines by done.
    rewrite decide_False.
    2:{ intros <-. apply (Hne 0); [simpl; lia|]. by rewrite N.add_0_r. }
    rewrite IH; [done|]. intros i Hi.
    replace (c + 1 + N.of_nat i)%N with (c + N.of_nat (S i))%N by lia.
    apply Hne. simpl. lia.
Qed.

Lemma line_props_numbered kind c groups i group :
  is_kind kind → Forall wf_group groups → groups !! i = Some group →
  line_props (kind +:+ PyStr.str (c + N.of_nat i)) (numbered_from kind c groups) = group.
Proof.
  intros Hk Hwf. revert c i.
  induction Hwf as [|g groups [_ Hg] Hwf IH]; intros c i Hi; [done|].
  rewrite numbered_from_cons, line_props_app, line_props_group_lines by done.
  destruct i as [|i].
  - simpl in Hi. simplify_eq. rewrite N.add_0_r, decide_True by done.
    rewrite line_props_numbered_other; [by rewrite app_nil_r|done..|].
    intros i _ Heq%key_inj. lia.
  - simpl in Hi. rewrite decide_False by (intros Heq%key_inj; lia).
    replace (c + N.of_nat (S i))%N with (c + 1 + N.of_nat i)%N by lia.
    by apply IH.
Qed.

Lemma numbered_from_no_newline kind c groups :
  is_kind kind → Forall wf_group groups →
  Forall (λ line, all_chars not_newline line = true) (numbered_from kind c groups).
Proof.
  intros Hk Hwf. apply Forall_forall. intros line.
  rewrite elem_of_numbered_from. intros (i & group & prop & Hi & Hp & ->).
  apply group_line_no_newline; [done|].
  eapply Forall_lookup_1 in Hwf as [_ Hg]; [|done].
  by eapply Forall_forall in Hg.
Qed.

Lemma numbered_from_good kind c groups :
  is_kind kind → Forall wf_group groups →
  Forall good_line (numbered_from kind c groups).
Proof.
  intros Hk Hwf. apply Forall_forall. intros line.
  rewrite elem_of_numbered_from. intros (i & group & prop & Hi & Hp & ->).
  apply good_line_match. right.
  eapply Forall_lookup_1 in Hwf as [_ Hg]; [|done].
  eapply Forall_forall in Hg; [|done].
  destruct (match_group_line kind (c + N.of_nat i) prop Hk Hg) as [_ ->]. eauto.
Qed.

Lemma numbered_from_nonempty kind c groups :
  groups ≠ [] → Forall wf_group groups → numbered_from kind c groups ≠ [].
Proof.
  intros Hne Hwf. destruct Hwf as [|group groups [Hg _] _]; [done|].
  rewrite numbered_from_cons. unfold group_lines. by destruct group.
Qed.

(** Splitting at the newlines undoes joining with the newline. *)
Lemma split_join lines :
  lines ≠ [] → Forall (λ line, all_chars not_newline line = true) lines →
  PyStr.split Re.newline (PyStr.join nl lines) = lines.
Proof.
  intros Hne Hl. induction Hl as [|line lines Hline Hl IH]; [done|].
  destruct lines as [|line' lines].
  - simpl. by apply split_no_sep.
  - change (PyStr.join nl (line :: line' :: lines))
      with (line +:+ String Re.newline (PyStr.join nl (line' :: lines))).
    rewrite split_app, IH by done. by rewrite split_no_sep.
Qed.

Lemma line_props_wf enum lines : Forall wf_prop (line_props enum lines).
Proof.
  apply Forall_forall. intros prop. unfold line_props.
  rewrite list_elem_of_omap. intros (line & _ & H).
  destruct (PyStr.startswith line "#"); [done|].
  destruct (Re.PROPERTY_RE_match line) as [[enum' prop']|] eqn:Hm; [|done].
  case_decide; simplify_eq.
  apply PROPERTY_RE_match_spec in Hm
    as (tag & ds & t & rest & _ & _ & _ & ? & ? & _ & _ & -> & _).
  by exists t.
Qed.

Lemma parsed_groups_wf arcname contents m :
  parses_to arcname contents m → Forall wf_group (batch_groups m).
Proof.
  intros Hp. apply Forall_forall. intros group. unfold batch_groups.
  rewrite list_elem_of_fmap. intros (enum & -> & [props Hin]%elem_of_sorted_keys).
  rewrite (add_lines_lookup _ _ _ _ enum Hp), lookup_empty in Hin |- *.
  pose proof (line_props_wf enum (content_lines contents)) as Hwf.
  destruct (line_props enum (content_lines contents)); [done|].
  simplify_eq. simpl. by split.
Qed.

Lemma merged_groups_wf arcname contentsList (propertiesList : list properties_t) :
  Forall2 (parses_to arcname) contentsList propertiesList →
  Forall wf_group (merged_groups propertiesList).
Proof.
  induction 1 as [|contents m cs ms Hm _ IH]; [by apply Forall_nil_2|].
  rewrite merged_groups_cons. apply Forall_app. split; [|done].
  by eapply parsed_groups_wf.
Qed.

End merged_lines.

(** ** Batches that share a group key *)

Section shared_keys.

Variable linesep : string.

(** The session of the entries of one kind. *)
Lemma session_tagged arcname kind contentsList (propertiesList : list properties_t) self :
  _truffle_metainf_file arcname = Some kind →
  Forall2 (parses_to arcname) contentsList propertiesList →
  Forall (tagged kind) propertiesList →
  contentsList ≠ [] →
  session linesep ((arcname,.) <$> contentsList) self
  = (Return (replicate (length contentsList) true),
     {| settings := {[kind := propertiesList]};
        arc := {| zf := [(arcname,
                          PyStr.join linesep
                            (numbered_lines kind (merged_groups propertiesList))
                          +:+ linesep)] |} |}).
Proof.
  intros Hk H Htag Hne.
  rewrite (session_kind linesep _ kind _ propertiesList) by done.
  by rewrite closing_batches_tagged.
Qed.

(** C4: two batches of a kind that both hold the group key [enum] come out
    of the session as two groups under two different new keys, the one of
    the earlier batch under the smaller index: the lines of the written
    entry hold the lines of the one group and, further on, the lines of the
    other, and read with the pattern they give under the first new key the
    suffixes of the first batch and under the second new key those of the
    second batch, each list whole and by itself, also when the two lists
    overlap or are the same. *)
Theorem C4_no_coalescing arcname kind contentsList (pre mid post : list properties_t)
    (properties1 properties2 : properties_t) enum props1 props2 self :
  let propertiesList := pre ++ properties1 :: mid ++ properties2 :: post in
  _truffle_metainf_file arcname = Some kind →
  Forall2 (parses_to arcname) contentsList propertiesList →
  Forall (tagged kind) propertiesList →
  properties1 !! enum = Some props1 →
  properties2 !! enum = Some props2 →
  ∃ (i j : nat) lines before between after,
    (sum_list (size <$> pre) ≤ i < sum_list (size <$> pre) + size properties1)%nat ∧
    (sum_list (size <$> pre ++ properties1 :: mid) ≤ j
     < sum_list (size <$> pre ++ properties1 :: mid) + size properties2)%nat ∧
    (i < j)%nat ∧
    kind +:+ PyStr.str (1 + N.of_nat i) ≠ kind +:+ PyStr.str (1 + N.of_nat j) ∧
    session linesep ((arcname,.) <$> contentsList) self
    = (Return (replicate (length contentsList) true),
       {| settings := {[kind := propertiesList]};
          arc := {| zf := [(arcname, PyStr.join linesep lines +:+ linesep)] |} |}) ∧
    lines = numbered_lines kind (merged_groups propertiesList) ∧
    lines = before
            ++ group_lines kind (1 + N.of_nat i) props1
            ++ between
            ++ group_lines kind (1 + N.of_nat j) props2
            ++ after ∧
    line_props (kind +:+ PyStr.str (1 + N.of_nat i)) lines = props1 ∧
    line_props (kind +:+ PyStr.str (1 + N.of_nat j)) lines = props2.
Proof.
  intros propertiesList Hk Hp Htag Hp1 Hp2.
  pose proof (metainf_file_kind _ _ Hk) as Hkind.
  pose proof (merged_groups_wf _ _ _ Hp) as Hwf.
  destruct (batch_groups_split _ _ _ Hp1) as (a1 & b1 & Hg1).
  destruct (batch_groups_split _ _ _ Hp2) as (a2 & b2 & Hg2).
  set (A := merged_groups pre ++ a1).
  set (B := b1 ++ merged_groups mid ++ a2).
  set (C := b2 ++ merged_groups post).
  assert (merged_groups propertiesList = A ++ props1 :: B ++ props2 :: C) as Hgroups.
  { unfold propertiesList, A, B, C.
    rewrite merged_groups_app, merged_groups_cons, merged_groups_app,
      merged_groups_cons, Hg1, Hg2.
    repeat (rewrite <-app_assoc || rewrite <-app_comm_cons). done. }
  assert (length A = sum_list (size <$> pre) + length a1)%nat as HA.
  { unfold A. by rewrite length_app, length_merged_groups. }
  assert (size properties1 = length a1 + S (length b1))%nat as H1.
  { by rewrite <-length_batch_groups, Hg1, length_app. }
  assert (length (A ++ props1 :: B)
          = sum_list (size <$> pre ++ properties1 :: mid) + length a2)%nat as HB.
  { rewrite <-length_merged_groups, merged_groups_app, merged_groups_cons, Hg1.
    unfold A, B. rewrite !length_app. simpl. rewrite !length_app. simpl. lia. }
  assert (size properties2 = length a2 + S (length b2))%nat as H2.
  { by rewrite <-length_batch_groups, Hg2, length_app. }
  assert (length A < length (A ++ props1 :: B))%nat as Hlt.
  { rewrite length_app. simpl. lia. }
  exists (length A), (length (A ++ props1 :: B)),
    (numbered_lines kind (merged_groups propertiesList)),
    (numbered_from kind 1 A),
    (numbered_from kind (1 + N.of_nat (S (length A))) B),
    (numbered_from kind (1 + N.of_nat (S (length (A ++ props1 :: B)))) C).
  split_and!; [lia|lia|lia|lia|lia| | |done| | |].
  - intros Heq%key_inj. lia.
  - apply session_tagged; [done..|].
    intros ->. apply Forall2_nil_inv_l in Hp. by destruct pre.
  - unfold numbered_lines. rewrite Hgroups.
    rewrite numbered_from_middle. f_equal. f_equal.
    rewrite numbered_from_middle, length_app. cbn [length].
    replace (1 + N.of_nat (S (length A)) + N.of_nat (length B))%N
      with (1 + N.of_nat (length A + S (length B)))%N by lia.
    replace (1 + N.of_nat (S (length A)) + N.of_nat (S (length B)))%N
      with (1 + N.of_nat (S (length A + S (length B))))%N by lia.
    done.
  - unfold numbered_lines. apply line_props_numbered; [done..|].
    rewrite Hgroups. by apply list_lookup_middle.
  - unfold numbered_lines. apply line_props_numbered; [done..|].
    rewrite Hgroups, app_comm_cons, app_assoc. by apply list_lookup_middle.
Qed.

End shared_keys.

Lemma C4_no_coalescing_witness :
  "language1" ≠ "language2" ∧
  session nl
    [("META-INF/truffle/language", "language1.a" +:+ nl +:+ "language1.b");
     ("META-INF/truffle/language", "language1.b" +:+ nl +:+ "language1.c")]
    fresh
  = (Return [true; true],
     {| settings :=
          {[ "language" := [ {[ "language1" := [".a"; ".b"] ]};
                             {[ "language1" := [".b"; ".c"] ]} ] ]};
        arc := {| zf := [("META-INF/truffle/language",
                          "language1.a" +:+ nl +:+ "language1.b" +:+ nl
                          +:+ "language2.b" +:+ nl +:+ "language2.c" +:+ nl)] |} |}) ∧
  line_props "language1" ["language1.a"; "language1.b"; "language2.b"; "language2.c"]
  = [".a"; ".b"] ∧
  line_props "language2" ["language1.a"; "language1.b"; "language2.b"; "language2.c"]
  = [".b"; ".c"].
Proof.
  destruct (C4_no_coalescing nl "META-INF/truffle/language" "language"
              ["language1.a" +:+ nl +:+ "language1.b";
               "language1.b" +:+ nl +:+ "language1.c"]
              [] [] []
              {[ "language1" := [".a"; ".b"] ]} {[ "language1" := [".b"; ".c"] ]}
              "language1" [".a"; ".b"] [".b"; ".c"] fresh)
    as (i & j & lines & before & between & after
        & Hi & Hj & _ & Hne & Hs & Hl & _ & H1 & H2).
  - reflexivity.
  - repeat constructor; vm_compute; reflexivity.
  - by_evaluation.
  - reflexivity.
  - reflexivity.
  - vm_compute in Hi, Hj.
    assert (i = 0%nat) as -> by lia. assert (j = 1%nat) as -> by lia.
    vm_compute in Hl. subst lines. split_and!.
    + exact Hne.
    + exact Hs.
    + exact H1.
    + exact H2.
Defined.

(** ** Stripping a merged entry *)

Section strip_blob.

Implicit Types (s t w kind : string) (lines : list string) (groups : list (list string)).

Lemma rstrip_all_space w : all_chars Ascii.is_space w = true → PyStr.rstrip w = EmptyString.
Proof.
  induction w as [|c w IH]; [done|]. simpl.
  intros [Hc Hw]%andb_true_iff. by rewrite IH, Hc.
Qed.

Lemma rstrip_app_space s w :
  all_chars Ascii.is_space w = true → PyStr.rstrip (s +:+ w) = PyStr.rstrip s.
Proof.
  intros Hw. induction s as [|c s IH].
  - rewrite sapp_nil_l. by apply rstrip_all_space.
  - rewrite sapp_cons. simpl. by rewrite IH.
Qed.

Lemma lstrip_head c s : Ascii.is_space c = false → PyStr.lstrip (String c s) = String c s.
Proof. intros H. simpl. by rewrite H. Qed.

Lemma join_cons sep line lines : ∃ t, PyStr.join sep (line :: lines) = line +:+ t.
Proof.
  destruct lines as [|line' lines].
  - exists EmptyString. simpl. by rewrite sapp_nil_r.
  - by eexists.
Qed.

Lemma join_snoc sep lines line : ∃ s, PyStr.join sep (lines ++ [line]) = s +:+ line.
Proof.
  induction lines as [|l lines [s IH]].
  - by exists EmptyString.
  - exists (l +:+ sep +:+ s).
    assert (∃ l' lines', lines ++ [line] = l' :: lines') as (l' & lines' & E).
    { destruct lines; simpl; eauto. }
    rewrite <-app_comm_cons. rewrite E in IH |- *.
    change (PyStr.join sep (l :: l' :: lines'))
      with (l +:+ sep +:+ PyStr.join sep (l' :: lines')).
    by rewrite IH, !sapp_assoc.
Qed.

(** The last line of a merged entry ends with the last suffix. *)
Lemma numbered_from_last kind c groups :
  groups ≠ [] → Forall wf_group groups →
  ∃ lines n prop,
    numbered_from kind c groups = lines ++ [(kind +:+ PyStr.str n) +:+ prop] ∧
    last (mjoin groups) = Some prop ∧ wf_prop prop.
Proof.
  intros Hne Hwf. destruct groups as [|g groups _] using rev_ind; [done|].
  rewrite Forall_app, Forall_singleton in Hwf. destruct Hwf as [_ [Hg Hp]].
  destruct g as [|p g _] using rev_ind; [done|].
  rewrite Forall_app, Forall_singleton in Hp. destruct Hp as [_ Hp].
  exists (numbered_from kind c groups
          ++ group_lines kind (c + N.of_nat (length groups)) g),
    (c + N.of_nat (length groups))%N, p.
  split_and!; [|by rewrite join_app; simpl; rewrite app_nil_r, app_assoc, last_snoc|done].
  rewrite numbered_from_app, numbered_from_cons, numbered_from_nil, app_nil_r.
  unfold group_lines. by rewrite fmap_app, app_assoc.
Qed.

(** Stripping a merged entry takes its final newline and nothing else, when
    the last suffix does not end in whitespace. *)
Lemma strip_merged kind groups :
  is_kind kind → groups ≠ [] → Forall wf_group groups →
  (∀ prop, last (mjoin groups) = Some prop → PyStr.rstrip prop = prop) →
  PyStr.strip (PyStr.join nl (numbered_lines kind groups) +:+ nl)
  = PyStr.join nl (numbered_lines kind groups).
Proof.
  intros Hk Hne Hwf Hlast. unfold numbered_lines, PyStr.strip.
  destruct (numbered_from_last kind 1 groups Hne Hwf)
    as (lines & n & prop & Hlines & Hprop & Hwp).
  assert (PyStr.lstrip (PyStr.join nl (numbered_from kind 1 groups) +:+ nl)
          = PyStr.join nl (numbered_from kind 1 groups) +:+ nl) as ->.
  { destruct Hwf as [|group groups [Hg _] _]; [done|].
    destruct group as [|p group]; [done|].
    rewrite numbered_from_cons. unfold group_lines. rewrite fmap_cons, <-app_comm_cons.
    destruct (join_cons nl ((kind +:+ PyStr.str 1) +:+ p)
                (((λ prop, (kind +:+ PyStr.str 1) +:+ prop) <$> group)
                 ++ numbered_from kind (1 + 1) groups)) as [t ->].
    destruct Hk as [-> | ->]; by rewrite !sapp_cons, lstrip_head. }
  rewrite rstrip_app_space by done. rewrite Hlines.
  destruct (join_snoc nl lines ((kind +:+ PyStr.str n) +:+ prop)) as [s ->].
  rewrite <-sapp_assoc. rewrite rstrip_app; rewrite (Hlast _ Hprop); [done|].
  by destruct Hwp as (t & -> & _).
Qed.

Lemma lstrip_app_space w s :
  all_chars Ascii.is_space w = true → PyStr.lstrip (w +:+ s) = PyStr.lstrip s.
Proof.
  induction w as [|c w IH]; [done|]. simpl.
  intros [Hc Hw]%andb_true_iff. by rewrite Hc, IH.
Qed.

Lemma strip_surrounded w1 s w2 :
  all_chars Ascii.is_space w1 = true → all_chars Ascii.is_space w2 = true →
  PyStr.strip (w1 +:+ s +:+ w2) = PyStr.strip s.
Proof.
  intros H1 H2. unfold PyStr.strip. rewrite lstrip_app_space by done.
  destruct (all_chars Ascii.is_space s) eqn:Hs.
  - rewrite (lstrip_all_space (s +:+ w2)) by by rewrite all_chars_app, Hs, H2.
    by rewrite (lstrip_all_space s).
  - rewrite lstrip_app by by apply lstrip_not_all_space.
    by apply rstrip_app_space.
Qed.

End strip_blob.

(** ** The lines of a content *)

Section content_text.

Variable linesep : string.

Implicit Types (s t w line cmt contents arcname kind : string) (lines : list string).

Lemma join_snoc_prefix sep lines :
  ∃ s, ∀ line, PyStr.join sep (lines ++ [line]) = s +:+ line.
Proof.
  induction lines as [|l lines [s IH]].
  - by exists EmptyString.
  - exists (l +:+ sep +:+ s). intros line.
    assert (∃ l' lines', lines ++ [line] = l' :: lines') as (l' & lines' & E).
    { destruct lines; simpl; eauto. }
    rewrite <-app_comm_cons. specialize (IH line). rewrite E in IH |- *.
    change (PyStr.join sep (l :: l' :: lines'))
      with (l +:+ sep +:+ PyStr.join sep (l' :: lines')).
    by rewrite IH, !sapp_assoc.
Qed.

Lemma rstrip_all_chars P s :
  all_chars P s = true → all_chars P (PyStr.rstrip s) = true.
Proof.
  induction s as [|c s IH]; [done|]. simpl. intros [Hc Hs]%andb_true_iff.
  specialize (IH Hs). destruct (PyStr.rstrip s) as [|c' r].
  - destruct (Ascii.is_space c); [done|]. simpl. by rewrite Hc.
  - simpl in *. by rewrite Hc, IH.
Qed.

Lemma rstrip_ends_clean line : ends_clean line → PyStr.rstrip line = line.
Proof.
  intros (t & c & -> & Hc).
  assert (PyStr.rstrip (String c EmptyString) = String c EmptyString) as E.
  { simpl. by rewrite Hc. }
  rewrite rstrip_app; by rewrite E.
Qed.

Lemma ends_clean_not_all_space line :
  ends_clean line → all_chars Ascii.is_space line = false.
Proof.
  intros (t & c & -> & Hc). rewrite all_chars_app. simpl.
  by rewrite Hc, andb_false_r.
Qed.

Lemma comment_head line :
  PyStr.startswith line "#" = true → ∃ t, line = String "#" t.
Proof.
  destruct line as [|c t]; [done|]. rewrite startswith_cons.
  intros [Hc _]%andb_true_iff. apply bool_decide_eq_true in Hc as <-. by exists t.
Qed.

Lemma comment_begins_clean line : PyStr.startswith line "#" = true → begins_clean line.
Proof. intros [t ->]%comment_head. by exists "#"%char, t. Qed.

Lemma rstrip_comment line :
  PyStr.startswith line "#" = true → PyStr.startswith (PyStr.rstrip line) "#" = true.
Proof. intros [t ->]%comment_head. simpl. by destruct (PyStr.rstrip t). Qed.

(** What [__add__] reads of a text of lines with whitespace around it: the
    lines, the last of them without the whitespace at its end. *)
Lemma content_lines_text w1 lines w2 :
  all_chars Ascii.is_space w1 = true → all_chars Ascii.is_space w2 = true →
  one_line_each lines → clean_ends lines →
  ∃ init line,
    lines = init ++ [line] ∧
    content_lines (w1 +:+ PyStr.join nl lines +:+ w2) = init ++ [PyStr.rstrip line] ∧
    (PyStr.rstrip line = line ∨
     PyStr.startswith line "#" = true ∧
     PyStr.startswith (PyStr.rstrip line) "#" = true).
Proof.
  intros H1 H2 Hnl [(first & Hfirst & c & t & -> & Hc) (line & Hlast & Hline)].
  apply last_Some in Hlast as [init ->]. exists init, line. split; [done|].
  assert (all_chars Ascii.is_space line = false) as Hns.
  { destruct Hline as [[u ->]%comment_head|He]; [done|].
    by apply ends_clean_not_all_space. }
  split.
  - unfold content_lines. rewrite strip_surrounded by done. unfold PyStr.strip.
    assert (PyStr.lstrip (PyStr.join nl (init ++ [line]))
            = PyStr.join nl (init ++ [line])) as ->.
    { destruct (init ++ [line]) as [|l ls] eqn:E; [done|].
      simpl in Hfirst. injection Hfirst as ->.
      destruct (join_cons nl (String c t) ls) as [u ->].
      by rewrite sapp_cons, lstrip_head. }
    destruct (join_snoc_prefix nl init) as [s Hs]. rewrite Hs.
    rewrite rstrip_app by by apply rstrip_not_all_space.
    rewrite <-Hs. apply split_join; [by destruct init|].
    unfold one_line_each in Hnl. rewrite Forall_app, Forall_singleton in Hnl.
    destruct Hnl as [Hi Hl]. rewrite Forall_app, Forall_singleton.
    split; [done|]. by apply rstrip_all_chars.
  - destruct Hline as [Hcm|He].
    + right. split; [done|]. by apply rstrip_comment.
    + left. by apply rstrip_ends_clean.
Qed.

Lemma without_comments_text w1 lines w2 :
  all_chars Ascii.is_space w1 = true → all_chars Ascii.is_space w2 = true →
  one_line_each lines → clean_ends lines →
  without_comments (content_lines (w1 +:+ PyStr.join nl lines +:+ w2))
  = without_comments lines.
Proof.
  intros H1 H2 Hnl Hc.
  destruct (content_lines_text w1 lines w2 H1 H2 Hnl Hc)
    as (init & line & -> & -> & [->|[Hl Hr]]); [done|].
  unfold without_comments. rewrite !filter_app. f_equal.
  rewrite !filter_cons_False; [done|congruence..].
Qed.

Lemma add_lines_text arcname w1 lines w2 m :
  all_chars Ascii.is_space w1 = true → all_chars Ascii.is_space w2 = true →
  one_line_each lines → clean_ends lines →
  add_lines arcname (content_lines (w1 +:+ PyStr.join nl lines +:+ w2)) m
  = add_lines arcname lines m.
Proof.
  intros H1 H2 Hnl Hc.
  rewrite add_lines_without_comments, without_comments_text by done.
  by rewrite <-add_lines_without_comments.
Qed.

(** *** Every content that is not blank is a text of lines *)

Lemma lstrip_split s :
  ∃ w, s = w +:+ PyStr.lstrip s ∧ all_chars Ascii.is_space w = true.
Proof.
  induction s as [|c s (w & Hs & Hw)]; [by exists EmptyString|].
  simpl. destruct (Ascii.is_space c) eqn:Hc.
  - exists (String c w). rewrite sapp_cons, <-Hs. split; [done|]. simpl. by rewrite Hc.
  - by exists EmptyString.
Qed.

Lemma rstrip_split s :
  ∃ w, s = PyStr.rstrip s +:+ w ∧ all_chars Ascii.is_space w = true.
Proof.
  induction s as [|c s (w & Hs & Hw)]; [by exists EmptyString|].
  simpl. destruct (PyStr.rstrip s) as [|c' r] eqn:Hr.
  - rewrite sapp_nil_l in Hs. subst w. destruct (Ascii.is_space c) eqn:Hc.
    + exists (String c s). split; [done|]. simpl. by rewrite Hc.
    + by exists s.
  - exists w. rewrite sapp_cons. by rewrite <-Hs.
Qed.

Lemma lstrip_begins s : PyStr.lstrip s = EmptyString ∨ begins_clean (PyStr.lstrip s).
Proof.
  induction s as [|c s IH]; [by left|]. simpl.
  destruct (Ascii.is_space c) eqn:Hc; [done|]. right. by exists c, s.
Qed.

Lemma rstrip_ends s : PyStr.rstrip s = EmptyString ∨ ends_clean (PyStr.rstrip s).
Proof.
  induction s as [|c s IH]; [by left|]. simpl.
  destruct (PyStr.rstrip s) as [|c' r].
  - destruct (Ascii.is_space c) eqn:Hc; [by left|]. right. by exists EmptyString, c.
  - right. destruct IH as [|(t & d & Ht & Hd)]; [done|].
    exists (String c t), d. by rewrite Ht, sapp_cons.
Qed.

Lemma rstrip_begins s : begins_clean s → begins_clean (PyStr.rstrip s).
Proof.
  intros (c & t & -> & Hc). simpl. rewrite Hc.
  destruct (PyStr.rstrip t) as [|c' r]; [by exists c, EmptyString|by exists c, (String c' r)].
Qed.

Lemma begins_clean_not_all_space s : begins_clean s → all_chars Ascii.is_space s = false.
Proof. intros (c & t & -> & Hc). simpl. by rewrite Hc. Qed.

(** Joining with the newline undoes splitting at the newlines. *)
Lemma join_split s : PyStr.join nl (PyStr.split Re.newline s) = s.
Proof.
  induction s as [|c s IH]; [done|]. simpl.
  pose proof (split_nonempty Re.newline s) as Hne.
  destruct (Ascii.eqb c Re.newline) eqn:Hc.
  - apply Ascii.eqb_eq in Hc as ->.
    destruct (PyStr.split Re.newline s) as [|w ws]; [done|].
    change (PyStr.join nl (EmptyString :: w :: ws))
      with (EmptyString +:+ nl +:+ PyStr.join nl (w :: ws)).
    by rewrite IH.
  - destruct (PyStr.split Re.newline s) as [|w ws]; [done|].
    destruct ws as [|w' ws].
    + simpl in *. by rewrite IH.
    + change (PyStr.join nl (String c w :: w' :: ws))
        with (String c w +:+ nl +:+ PyStr.join nl (w' :: ws)).
      change (PyStr.join nl (w :: w' :: ws))
        with (w +:+ nl +:+ PyStr.join nl (w' :: ws)) in IH.
      by rewrite sapp_cons, IH.
Qed.

Lemma space_newline : Ascii.is_space Re.newline = true.
Proof. reflexivity. Qed.

Lemma head_split c s :
  Ascii.is_space c = false →
  ∃ w, head (PyStr.split Re.newline (String c s)) = Some (String c w).
Proof.
  intros Hc. simpl. destruct (Ascii.eqb c Re.newline) eqn:He.
  - apply Ascii.eqb_eq in He as ->. by rewrite space_newline in Hc.
  - destruct (PyStr.split Re.newline s) as [|w ws]; [by exists EmptyString|by exists w].
Qed.

Lemma last_split s c :
  Ascii.is_space c = false →
  ∃ w, last (PyStr.split Re.newline (s +:+ String c EmptyString))
       = Some (w +:+ String c EmptyString).
Proof.
  intros Hc.
  assert (Ascii.eqb c Re.newline = false) as He.
  { apply Ascii.eqb_neq. intros ->. by rewrite space_newline in Hc. }
  induction s as [|d s [w IH]].
  - exists EmptyString. simpl. by rewrite He.
  - rewrite sapp_cons. simpl.
    destruct (PyStr.split Re.newline (s +:+ String c EmptyString)) as [|w0 ws] eqn:E;
      [done|].
    destruct (Ascii.eqb d Re.newline).
    + exists w. by rewrite last_cons, IH.
    + destruct ws as [|w1 ws].
      * simpl in IH. injection IH as ->. exists (String d w).
        by rewrite sapp_cons.
      * exists w. by rewrite last_cons_cons in IH |- *.
Qed.

Lemma content_text contents :
  all_chars Ascii.is_space contents = false →
  ∃ w1 lines w2,
    contents = w1 +:+ PyStr.join nl lines +:+ w2 ∧
    all_chars Ascii.is_space w1 = true ∧ all_chars Ascii.is_space w2 = true ∧
    one_line_each lines ∧ clean_ends lines.
Proof.
  intros Hns.
  destruct (lstrip_split contents) as (w1 & H1 & Hw1).
  destruct (rstrip_split (PyStr.lstrip contents)) as (w2 & H2 & Hw2).
  pose proof (lstrip_not_all_space _ Hns) as Hl.
  destruct (lstrip_begins contents) as [|Hb]; [done|].
  pose proof (rstrip_begins _ Hb) as Hb'.
  destruct (rstrip_ends (PyStr.lstrip contents)) as [He|He].
  { apply begins_clean_not_all_space, rstrip_not_all_space in Hb. done. }
  set (body := PyStr.rstrip (PyStr.lstrip contents)) in *.
  exists w1, (PyStr.split Re.newline body), w2.
  split_and!; [|done|done|apply split_pieces|].
  - by rewrite join_split, <-H2.
  - destruct Hb' as (c & t & Hbody & Hc). destruct He as (u & d & Hbody' & Hd). split.
    + rewrite Hbody. destruct (head_split c t Hc) as [w Hw]. exists (String c w).
      split; [done|]. by exists c, w.
    + rewrite Hbody'. destruct (last_split u d Hd) as [w Hw].
      exists (w +:+ String d EmptyString). split; [done|]. right. by exists w, d.
Qed.

Lemma clean_ends_insert before cmt after :
  PyStr.startswith cmt "#" = true →
  clean_ends (before ++ after) → clean_ends (before ++ cmt :: after).
Proof.
  intros Hc [(first & Hfirst & Hb) (line & Hlast & Hline)]. split.
  - destruct before as [|l before].
    + exists cmt. split; [done|]. by apply comment_begins_clean.
    + exists first. by split.
  - destruct after as [|l after _] using rev_ind.
    + exists cmt. split; [|by left].
      change (before ++ [cmt]) with (before ++ [cmt]). apply last_snoc.
    + exists line. split; [|done].
      rewrite app_assoc, last_snoc in Hlast.
      by rewrite app_comm_cons, app_assoc, last_snoc.
Qed.

(** C2: [add] reads the lines of a recognized entry after the whitespace at
    the two ends of the content is taken away. Every content that is not
    blank is made of lines that begin and end without whitespace, with
    whitespace around them or not; a blank content is read as one empty
    line, which is not of the pattern, and raises. For a content that is
    not blank: a line that is
    neither a comment nor of the pattern makes [add] raise the format
    error, the session it belongs to ends with an exception and writes
    nothing; and when every line is a comment or of the pattern, [add]
    returns true and records the batch. *)
Theorem C2_format_violation arcname kind :
  _truffle_metainf_file arcname = Some kind →
  (∀ contents,
     all_chars Ascii.is_space contents = false →
     ∃ w1 lines w2,
       contents = w1 +:+ PyStr.join nl lines +:+ w2 ∧
       all_chars Ascii.is_space w1 = true ∧ all_chars Ascii.is_space w2 = true ∧
       one_line_each lines ∧ clean_ends lines) ∧
  (∀ contents self,
     all_chars Ascii.is_space contents = true →
     bad_line EmptyString ∧
     __add__ arcname contents self
     = (Raise (format_error arcname EmptyString), self)) ∧
  (∀ w1 lines w2,
     all_chars Ascii.is_space w1 = true → all_chars Ascii.is_space w2 = true →
     one_line_each lines → clean_ends lines →
     (Exists bad_line lines →
      ∃ line,
        line ∈ lines ∧ bad_line line ∧
        (∀ self, __add__ arcname (w1 +:+ PyStr.join nl lines +:+ w2) self
                 = (Raise (format_error arcname line), self)) ∧
        (∀ before after self, ∃ e self',
           session linesep
             (before ++ (arcname, w1 +:+ PyStr.join nl lines +:+ w2) :: after) self
           = (Raise e, self') ∧
           zf (arc self') = [])) ∧
     (Forall good_line lines →
      ∃ properties,
        add_lines arcname lines ∅ = Return properties ∧
        ∀ self, __add__ arcname (w1 +:+ PyStr.join nl lines +:+ w2) self
                = (Return true,
                   {| settings := setdefault_append kind properties (settings self);
                      arc := arc self |}))).
Proof.
  intros Hk. split_and!; [apply content_text| |].
  { intros contents self Hb. split; [by apply blank_is_bad|].
    rewrite (add_recognized _ kind) by done. unfold content_lines.
    by rewrite strip_all_space. }
  intros w1 lines w2 H1 H2 Hnl Hc. split.
  - intros Hbad.
    destruct (add_lines_bad arcname _ ∅ Hbad) as (line & Hin & Hb & Hr).
    exists line.
    assert (∀ self, __add__ arcname (w1 +:+ PyStr.join nl lines +:+ w2) self
                    = (Raise (format_error arcname line), self)) as Hadd.
    { intros self. rewrite (add_recognized _ kind) by done.
      by rewrite add_lines_text, Hr by done. }
    split_and!; [done..|].
    intros before after self. apply session_add_Raise. eauto.
  - intros Hgood. destruct (add_lines_good arcname _ ∅ Hgood) as [properties Hr].
    exists properties. split; [done|]. intros self.
    rewrite (add_recognized _ kind) by done. by rewrite add_lines_text, Hr by done.
Qed.

(** C6: the lines that begin with [#] are skipped wherever they stand among
    the lines that [add] reads. For a content made of lines that begin and
    end without whitespace, with whitespace around them or not: a comment
    put at any position among the lines changes neither what [add] does nor
    how the session ends, two such contents whose lines differ only by
    comments are treated alike, and what [add] records is what the lines
    without the comments give. *)
Theorem C6_comments_ignored arcname w1 w2 :
  all_chars Ascii.is_space w1 = true → all_chars Ascii.is_space w2 = true →
  (∀ before cmt after,
     PyStr.startswith cmt "#" = true → all_chars not_newline cmt = true →
     one_line_each (before ++ after) → clean_ends (before ++ after) →
     (∀ self,
        __add__ arcname (w1 +:+ PyStr.join nl (before ++ cmt :: after) +:+ w2) self
        = __add__ arcname (w1 +:+ PyStr.join nl (before ++ after) +:+ w2) self) ∧
     (∀ entries1 entries2 self,
        session linesep
          (entries1
           ++ (arcname, w1 +:+ PyStr.join nl (before ++ cmt :: after) +:+ w2)
              :: entries2) self
        = session linesep
            (entries1
             ++ (arcname, w1 +:+ PyStr.join nl (before ++ after) +:+ w2)
                :: entries2) self)) ∧
  (∀ lines lines',
     one_line_each lines → one_line_each lines' →
     clean_ends lines → clean_ends lines' →
     without_comments lines = without_comments lines' →
     (∀ self, __add__ arcname (w1 +:+ PyStr.join nl lines +:+ w2) self
              = __add__ arcname (w1 +:+ PyStr.join nl lines' +:+ w2) self) ∧
     (∀ entries1 entries2 self,
        session linesep
          (entries1 ++ (arcname, w1 +:+ PyStr.join nl lines +:+ w2) :: entries2) self
        = session linesep
            (entries1 ++ (arcname, w1 +:+ PyStr.join nl lines' +:+ w2) :: entries2)
            self)) ∧
  (∀ lines kind self,
     _truffle_metainf_file arcname = Some kind →
     one_line_each lines → clean_ends lines →
     __add__ arcname (w1 +:+ PyStr.join nl lines +:+ w2) self
     = match add_lines arcname (without_comments lines) ∅ with
       | Return properties =>
           (Return true,
            {| settings := setdefault_append kind properties (settings self);
               arc := arc self |})
       | Raise e => (Raise e, self)
       end).
Proof.
  intros H1 H2.
  assert (∀ lines lines',
            one_line_each lines → one_line_each lines' →
            clean_ends lines → clean_ends lines' →
            without_comments lines = without_comments lines' →
            ∀ self, __add__ arcname (w1 +:+ PyStr.join nl lines +:+ w2) self
                    = __add__ arcname (w1 +:+ PyStr.join nl lines' +:+ w2) self)
    as Hadd.
  { intros lines lines' Hnl Hnl' Hc Hc' Heq self. unfold __add__.
    destruct (_truffle_metainf_file arcname); [|done].
    rewrite !add_lines_text by done.
    rewrite (add_lines_without_comments _ lines), Heq.
    by rewrite <-add_lines_without_comments. }
  assert (∀ lines lines',
            one_line_each lines → one_line_each lines' →
            clean_ends lines → clean_ends lines' →
            without_comments lines = without_comments lines' →
            ∀ entries1 entries2 self,
              session linesep
                (entries1 ++ (arcname, w1 +:+ PyStr.join nl lines +:+ w2) :: entries2)
                self
              = session linesep
                  (entries1
                   ++ (arcname, w1 +:+ PyStr.join nl lines' +:+ w2) :: entries2)
                  self) as Hsession.
  { intros lines lines' Hnl Hnl' Hc Hc' Heq entries1 entries2 self.
    rewrite !session_unfold. unfold mbind at 1 3, M_bind at 1 3.
    by rewrite (add_all_ext entries1 arcname _ (w1 +:+ PyStr.join nl lines' +:+ w2))
      by by apply Hadd. }
  split_and!.
  - intros before cmt after Hcmt Hn Hnl Hc.
    assert (one_line_each (before ++ cmt :: after)) as Hnl'.
    { unfold one_line_each in Hnl |- *. rewrite Forall_app, Forall_cons.
      rewrite Forall_app in Hnl. by destruct Hnl. }
    pose proof (clean_ends_insert before cmt after Hcmt Hc) as Hc'.
    pose proof (without_comments_insert before cmt after Hcmt) as Heq.
    split; [by apply Hadd|by apply Hsession].
  - intros lines lines' Hnl Hnl' Hc Hc' Heq.
    split; [by apply Hadd|by apply Hsession].
  - intros lines kind self Hk Hnl Hc. rewrite (add_recognized _ kind) by done.
    rewrite add_lines_text by done. by rewrite <-add_lines_without_comments.
Qed.

End content_text.

Lemma C2_format_violation_witness :
  (∃ line,
     bad_line line ∧
     __add__ "META-INF/truffle/language"
       (" " +:+ PyStr.join nl ["language1.a"; "language.x"; "#c"] +:+ nl) fresh
     = (Raise (format_error "META-INF/truffle/language" line), fresh)) ∧
  (∃ e self',
     session nl
       [("META-INF/truffle/instrument", "instrument1.a");
        ("META-INF/truffle/language",
         " " +:+ PyStr.join nl ["language1.a"; "language.x"; "#c"] +:+ nl)]
       fresh
     = (Raise e, self') ∧
     zf (arc self') = []) ∧
  __add__ "META-INF/truffle/language"
    (" " +:+ "language1.a" +:+ nl +:+ "language.x" +:+ nl +:+ "#c" +:+ nl) fresh
  = (Raise (AssertionError
              ("line in META-INF/truffle/language does not match "
               +:+ "(language\d+|instrument\d+)(\..+): language.x")),
     fresh) ∧
  (∃ properties,
     __add__ "META-INF/truffle/language"
       (" " +:+ PyStr.join nl ["#c"; "language1.x"; "language2.y"] +:+ nl) fresh
     = (Return true,
        {| settings := setdefault_append "language" properties ∅;
           arc := {| zf := [] |} |})) ∧
  __add__ "META-INF/truffle/language"
    (" " +:+ "#c" +:+ nl +:+ "language1.x" +:+ nl +:+ "language2.y" +:+ nl) fresh
  = (Return true,
     {| settings :=
          {[ "language" := [ {[ "language1" := [".x"]; "language2" := [".y"] ]} ] ]};
        arc := {| zf := [] |} |}).
Proof.
  destruct (C2_format_violation nl "META-INF/truffle/language" "language" eq_refl)
    as (_ & _ & H).
  destruct (H " " ["language1.a"; "language.x"; "#c"] nl)
    as [Hbad _]; [reflexivity..| | |].
  { unfold one_line_each. repeat constructor. }
  { split; eexists; (split; [reflexivity|]).
    - by exists "l"%char, "anguage1.a".
    - by left. }
  destruct Hbad as (line & _ & Hb & Hadd & Hs).
  { apply Exists_cons_tl, Exists_cons_hd, bad_line_language_x. }
  destruct (H " " ["#c"; "language1.x"; "language2.y"] nl)
    as [_ Hgood]; [reflexivity..| | |].
  { unfold one_line_each. repeat constructor. }
  { split; eexists; (split; [reflexivity|]).
    - by exists "#"%char, "c".
    - right. by exists "language2.", "y"%char. }
  destruct Hgood as (properties & _ & Hadd').
  { repeat apply Forall_cons_2; [by left|apply good_line_language1_x| |apply Forall_nil_2].
    apply good_line_match. right. by eexists. }
  split_and!.
  - exists line. split; [exact Hb|apply Hadd].
  - apply (Hs [("META-INF/truffle/instrument", "instrument1.a")] []).
  - vm_compute. reflexivity.
  - exists properties. apply Hadd'.
  - vm_compute. reflexivity.
Defined.

(** C2 for the lines of the content as it stands: whitespace at the two ends
    of the content is never held against the pattern, so that a first line
    that begins with a space and a blank line at the end are accepted,
    and a last line that is of the pattern only with the space at its end
    raises. *)
Lemma C2_format_violation_counterexample :
  (PyStr.split Re.newline " language1.a" = [" language1.a"] ∧
   bad_line " language1.a" ∧
   __add__ "META-INF/truffle/language" " language1.a" fresh
   = (Return true,
      {| settings := {[ "language" := [ {[ "language1" := [".a"] ]} ] ]};
         arc := {| zf := [] |} |})) ∧
  (PyStr.split Re.newline ("language1.a" +:+ nl +:+ " " +:+ nl)
   = ["language1.a"; " "; EmptyString] ∧
   bad_line " " ∧ bad_line EmptyString ∧
   __add__ "META-INF/truffle/language" ("language1.a" +:+ nl +:+ " " +:+ nl) fresh
   = (Return true,
      {| settings := {[ "language" := [ {[ "language1" := [".a"] ]} ] ]};
         arc := {| zf := [] |} |})) ∧
  (PyStr.split Re.newline "language1. " = ["language1. "] ∧
   good_line "language1. " ∧
   Re.PROPERTY_RE_match "language1. " = Some ("language1", ". ") ∧
   __add__ "META-INF/truffle/language" "language1. " fresh
   = (Raise (format_error "META-INF/truffle/language" "language1."), fresh)).
Proof.
  split_and!; try (vm_compute; reflexivity);
    try (apply bad_line_no_match; split; reflexivity).
  apply good_line_match. right. by eexists.
Qed.

Lemma C6_comments_ignored_witness :
  session nl
    [("META-INF/truffle/language",
      " " +:+ PyStr.join nl ["#x"; "language2.a"; "#y"; "language1.b"; "#z "]
      +:+ nl)]
    fresh
  = session nl
      [("META-INF/truffle/language",
        " " +:+ PyStr.join nl ["language2.a"; "language1.b"] +:+ nl)]
      fresh ∧
  session nl
    [("META-INF/truffle/language",
      " " +:+ "#x" +:+ nl +:+ "language2.a" +:+ nl +:+ "#y" +:+ nl
      +:+ "language1.b" +:+ nl +:+ "#z " +:+ nl)]
    fresh
  = (Return [true],
     {| settings :=
          {[ "language" := [ {[ "language2" := [".a"]; "language1" := [".b"] ]} ] ]};
        arc := {| zf := [("META-INF/truffle/language",
                          "language1.b" +:+ nl +:+ "language2.a" +:+ nl)] |} |}).
Proof.
  destruct (C6_comments_ignored nl "META-INF/truffle/language" " " nl)
    as (_ & H & _); [reflexivity..|].
  destruct (H ["#x"; "language2.a"; "#y"; "language1.b"; "#z "]
              ["language2.a"; "language1.b"]) as [_ Hs].
  - unfold one_line_each. repeat constructor.
  - unfold one_line_each. repeat constructor.
  - split; eexists; (split; [reflexivity|]).
    + by exists "#"%char, "x".
    + by left.
  - split; eexists; (split; [reflexivity|]).
    + by exists "l"%char, "anguage2.a".
    + right. by exists "language1.", "b"%char.
  - reflexivity.
  - split; [apply (Hs [] [])|]. vm_compute. reflexivity.
Defined.

(** C6 for a comment put before the first or after the last line of a
    content that begins or ends with whitespace: the comment keeps [strip]
    from taking the whitespace away, so that a space at the end of the last
    suffix comes to stay, a first line that begins with a space is no
    longer accepted, and an empty content is. *)
Lemma C6_comments_ignored_counterexample :
  (zf (arc (session nl [("META-INF/truffle/language", "language1.a ")] fresh).2)
   = [("META-INF/truffle/language", "language1.a" +:+ nl)] ∧
   zf (arc (session nl
              [("META-INF/truffle/language", "language1.a " +:+ nl +:+ "#c")]
              fresh).2)
   = [("META-INF/truffle/language", "language1.a " +:+ nl)] ∧
   "language1.a " +:+ nl ≠ "language1.a" +:+ nl) ∧
  (__add__ "META-INF/truffle/language" " language1.a" fresh
   = (Return true,
      {| settings := {[ "language" := [ {[ "language1" := [".a"] ]} ] ]};
         arc := {| zf := [] |} |}) ∧
   __add__ "META-INF/truffle/language" ("#c" +:+ nl +:+ " language1.a") fresh
   = (Raise (format_error "META-INF/truffle/language" " language1.a"), fresh)) ∧
  (__add__ "META-INF/truffle/language" EmptyString fresh
   = (Raise (format_error "META-INF/truffle/language" EmptyString), fresh) ∧
   __add__ "META-INF/truffle/language" ("#c" +:+ nl) fresh
   = (Return true,
      {| settings := {[ "language" := [∅] ]}; arc := {| zf := [] |} |})).
Proof.
  split_and!; try (vm_compute; reflexivity). vm_compute. discriminate.
Qed.

(** ** Merging a merged entry again *)

Section remerge.

Implicit Types (kind enum arcname : string) (groups : list (list string))
  (m : properties_t).

Lemma elem_of_new_keys kind n enum :
  enum ∈ new_keys kind n ↔ ∃ i, i < n ∧ enum = kind +:+ PyStr.str (1 + N.of_nat i).
Proof.
  unfold new_keys. rewrite list_elem_of_fmap. split.
  - intros (i & -> & Hi%elem_of_seq). exists i. split; [lia|done].
  - intros (i & Hi & ->). exists i. split; [done|]. apply elem_of_seq. lia.
Qed.

Lemma NoDup_new_keys kind n : NoDup (new_keys kind n).
Proof.
  unfold new_keys. apply NoDup_fmap_2; [|apply NoDup_seq].
  intros i j Heq%key_inj. lia.
Qed.

Lemma new_keys_sorted kind n :
  is_kind kind → (n ≤ 9)%nat → StronglySorted String.le (new_keys kind n).
Proof.
  intros [-> | ->] Hn;
    do 10 (destruct n as [|n];
           [by_evaluation|]);
    lia.
Qed.

(** What [__add__] reads from the lines of a merged entry: the groups
    under the keys [<kind>1], [<kind>2], ... *)
Lemma reparse arcname kind groups :
  is_kind kind → Forall wf_group groups →
  ∃ m,
    add_lines arcname (numbered_lines kind groups) ∅ = Return m ∧
    (∀ i group, groups !! i = Some group →
                m !! (kind +:+ PyStr.str (1 + N.of_nat i)) = Some group) ∧
    (∀ enum, is_Some (m !! enum) → enum ∈ new_keys kind (length groups)).
Proof.
  intros Hk Hwf. unfold numbered_lines.
  destruct (add_lines_good arcname (numbered_from kind 1 groups) ∅) as [m Hm].
  { by apply numbered_from_good. }
  exists m. split_and!; [done|..].
  - intros i group Hi. rewrite (add_lines_lookup _ _ _ _ _ Hm).
    rewrite (line_props_numbered kind 1 groups i group) by done.
    eapply Forall_lookup_1 in Hwf as [Hg _]; [|done]. by destruct group.
  - intros enum. rewrite (add_lines_lookup _ _ _ _ _ Hm), lookup_empty.
    destruct (decide (enum ∈ new_keys kind (length groups))) as [|Hout]; [done|].
    rewrite line_props_numbered_other; [by intros []|done..|].
    intros i Hi ->. apply Hout, elem_of_new_keys. eauto.
Qed.

Lemma reparse_viewkeys kind groups m :
  (∀ i group, groups !! i = Some group →
              m !! (kind +:+ PyStr.str (1 + N.of_nat i)) = Some group) →
  (∀ enum, is_Some (m !! enum) → enum ∈ new_keys kind (length groups)) →
  viewkeys m ≡ₚ new_keys kind (length groups).
Proof.
  intros Hin Hout. apply NoDup_Permutation.
  - apply NoDup_viewkeys.
  - apply NoDup_new_keys.
  - intros enum. rewrite elem_of_viewkeys. split; [apply Hout|].
    intros (i & Hi & ->)%elem_of_new_keys.
    destruct (lookup_lt_is_Some_2 groups i Hi) as [group Hg]. eauto.
Qed.

Lemma reparse_groups kind groups m :
  (∀ i group, groups !! i = Some group →
              m !! (kind +:+ PyStr.str (1 + N.of_nat i)) = Some group) →
  (λ enum, default [] (m !! enum)) <$> new_keys kind (length groups) = groups.
Proof.
  intros Hin. apply list_eq. intros i. unfold new_keys.
  rewrite !list_lookup_fmap. destruct (decide (i < length groups)) as [Hi|Hi].
  - rewrite lookup_seq_lt by done. simpl.
    destruct (lookup_lt_is_Some_2 groups i Hi) as [group Hg].
    by rewrite (Hin i group Hg), Hg.
  - rewrite lookup_seq_ge by lia. simpl. symmetry. apply lookup_ge_None. lia.
Qed.

Lemma reparse_tagged kind groups m :
  (∀ enum, is_Some (m !! enum) → enum ∈ new_keys kind (length groups)) →
  tagged kind m.
Proof.
  intros Hout enum props Hp. simpl.
  assert (enum ∈ new_keys kind (length groups)) as Hk by eauto.
  apply elem_of_new_keys in Hk as (i & _ & ->). apply startswith_app.
Qed.

(** C3: merging a merged entry again. With the newline as line separator,
    a merged entry of at least one group whose last suffix does not end in
    whitespace is read back by a new session as one batch; the groups of
    the second merge are those of the first in the ascending order of the
    keys [<kind>1], [<kind>2], ..., hence a permutation of them, and they
    are the same groups under the same indices when there are at most
    nine. *)
Theorem C3_remerge arcname kind contentsList (propertiesList : list properties_t) self :
  let groups := merged_groups propertiesList in
  let blob := PyStr.join nl (numbered_lines kind groups) +:+ nl in
  _truffle_metainf_file arcname = Some kind →
  Forall2 (parses_to arcname) contentsList propertiesList →
  Forall (tagged kind) propertiesList →
  groups ≠ [] →
  (∀ prop, last (mjoin groups) = Some prop → PyStr.rstrip prop = prop) →
  session nl ((arcname,.) <$> contentsList) self
  = (Return (replicate (length contentsList) true),
     {| settings := {[kind := propertiesList]};
        arc := {| zf := [(arcname, blob)] |} |}) ∧
  ∃ properties' groups',
    parses_to arcname blob properties' ∧
    groups' = merged_groups [properties'] ∧
    session nl [(arcname, blob)] self
    = (Return [true],
       {| settings := {[kind := [properties']]};
          arc := {| zf := [(arcname,
                            PyStr.join nl (numbered_lines kind groups') +:+ nl)] |} |}) ∧
    groups' ≡ₚ groups ∧
    ((length groups ≤ 9)%nat → groups' = groups).
Proof.
  intros groups blob Hk Hparse Htag Hne Hlast.
  pose proof (metainf_file_kind _ _ Hk) as Hkind.
  pose proof (merged_groups_wf _ _ _ Hparse) as Hwf. fold groups in Hwf.
  split.
  { rewrite (session_kind nl arcname kind contentsList propertiesList); [|done..|].
    - by rewrite closing_batches_tagged.
    - intros ->. apply Forall2_nil_inv_l in Hparse as ->. done. }
  destruct (reparse arcname kind groups Hkind Hwf) as (m & Hm & Hin & Hout).
  assert (content_lines blob = numbered_lines kind groups) as Hlines.
  { unfold content_lines, blob. rewrite strip_merged by done.
    apply split_join.
    - by apply numbered_from_nonempty.
    - by apply numbered_from_no_newline. }
  assert (parses_to arcname blob m) as Hblob.
  { unfold parses_to. by rewrite Hlines. }
  pose proof (reparse_tagged kind groups m Hout) as Htagged.
  pose proof (reparse_viewkeys kind groups m Hin Hout) as Hkeys.
  assert (merged_groups [m] = batch_groups m) as Hgroups'.
  { unfold merged_groups. simpl. by rewrite app_nil_r. }
  exists m, (merged_groups [m]). split_and!; [done..| | |].
  - rewrite (session_kind nl arcname kind [blob] [m]);
      [|done|by apply Forall2_cons|done].
    rewrite closing_batches_tagged; [done|]. by rewrite Forall_singleton.
  - rewrite Hgroups'. unfold batch_groups.
    rewrite sorted_Permutation, Hkeys. by rewrite (reparse_groups kind groups m).
  - intros Hn. rewrite Hgroups'. unfold batch_groups.
    assert (PyStr.sorted (viewkeys m) = new_keys kind (length groups)) as ->.
    { apply (StronglySorted_unique String.le).
      - apply sorted_StronglySorted.
      - by apply new_keys_sorted.
      - by rewrite sorted_Permutation. }
    by apply reparse_groups.
Qed.

End remerge.

Lemma C3_remerge_witness :
  ∃ properties',
    session nl
      [("META-INF/truffle/language",
        "language1.a" +:+ nl +:+ "language2.b" +:+ nl +:+ "language3.c" +:+ nl)]
      fresh
    = (Return [true],
       {| settings := {[ "language" := [properties'] ]};
          arc := {| zf := [("META-INF/truffle/language",
                            "language1.a" +:+ nl +:+ "language2.b" +:+ nl
                            +:+ "language3.c" +:+ nl)] |} |}).
Proof.
  destruct (C3_remerge "META-INF/truffle/language" "language"
              ["language1.a" +:+ nl +:+ "language2.b"; "language1.c"]
              [ {[ "language1" := [".a"]; "language2" := [".b"] ]};
                {[ "language1" := [".c"] ]} ]
              fresh)
    as [_ (properties' & groups' & _ & _ & Hs & _ & Heq)].
  - reflexivity.
  - repeat constructor; vm_compute; reflexivity.
  - by_evaluation.
  - vm_compute. discriminate.
  - intros prop H. vm_compute in H. injection H as <-. reflexivity.
  - exists properties'. rewrite Heq in Hs; [exact Hs|]. vm_compute. lia.
Defined.

(** C3 without those conditions: the second merge sorts the keys
    [language1] ... [language10] as strings, so that with ten groups the
    group written under index 10 comes back under index 2; a last suffix
    that ends in a space loses it to [strip]; with the line separator of
    Windows the suffixes come back with a carriage return; and the merged
    entry of a session of comments only cannot be read back. *)
Lemma C3_remerge_counterexample :
  (let contents :=
     PyStr.join nl ["language1.a"; "language2.b"; "language3.c"; "language4.d";
                    "language5.e"; "language6.f"; "language7.g"; "language8.h";
                    "language9.i"; "language10.j"] in
   let blob1 :=
     PyStr.join nl ["language1.a"; "language2.j"; "language3.b"; "language4.c";
                    "language5.d"; "language6.e"; "language7.f"; "language8.g";
                    "language9.h"; "language10.i"] +:+ nl in
   let blob2 :=
     PyStr.join nl ["language1.a"; "language2.i"; "language3.j"; "language4.b";
                    "language5.c"; "language6.d"; "language7.e"; "language8.f";
                    "language9.g"; "language10.h"] +:+ nl in
   (session nl [("META-INF/truffle/language", contents)] fresh).1 = Return [true] ∧
   zf (arc (session nl [("META-INF/truffle/language", contents)] fresh).2)
   = [("META-INF/truffle/language", blob1)] ∧
   (session nl [("META-INF/truffle/language", blob1)] fresh).1 = Return [true] ∧
   zf (arc (session nl [("META-INF/truffle/language", blob1)] fresh).2)
   = [("META-INF/truffle/language", blob2)] ∧
   blob2 ≠ blob1) ∧
  (let contents := "language2.a " +:+ nl +:+ "language1.b" in
   let blob1 := "language1.b" +:+ nl +:+ "language2.a " +:+ nl in
   let blob2 := "language1.b" +:+ nl +:+ "language2.a" +:+ nl in
   zf (arc (session nl [("META-INF/truffle/language", contents)] fresh).2)
   = [("META-INF/truffle/language", blob1)] ∧
   zf (arc (session nl [("META-INF/truffle/language", blob1)] fresh).2)
   = [("META-INF/truffle/language", blob2)] ∧
   blob2 ≠ blob1) ∧
  (let contents := "language1.a" +:+ nl +:+ "language2.b" in
   let blob1 := "language1.a" +:+ crlf +:+ "language2.b" +:+ crlf in
   let blob2 := "language1.a" +:+ String "013" crlf +:+ "language2.b" +:+ crlf in
   zf (arc (session crlf [("META-INF/truffle/language", contents)] fresh).2)
   = [("META-INF/truffle/language", blob1)] ∧
   zf (arc (session crlf [("META-INF/truffle/language", blob1)] fresh).2)
   = [("META-INF/truffle/language", blob2)] ∧
   blob2 ≠ blob1) ∧
  (zf (arc (session nl [("META-INF/truffle/language", "#c")] fresh).2)
   = [("META-INF/truffle/language", nl)] ∧
   session nl [("META-INF/truffle/language", nl)] fresh
   = (Raise (format_error "META-INF/truffle/language" EmptyString), fresh)).
Proof.
  split; [|split; [|split]]; cbv zeta; split_and!;
    try (vm_compute; reflexivity); vm_compute; discriminate.
Qed.

(** * Further properties of the participant *)

(** ** The groups of a match *)

Section match_on_lines.

Lemma content_lines_no_newline contents line :
  line ∈ content_lines contents → all_chars not_newline line = true.
Proof.
  intros Hin. unfold content_lines in Hin.
  pose proof (split_pieces Re.newline (PyStr.strip contents)) as H.
  rewrite Forall_forall in H. by apply H.
Qed.

Lemma line_end_no_newline s rest :
  all_chars not_newline (s +:+ rest) = true → line_end rest → rest = EmptyString.
Proof.
  rewrite all_chars_app. intros [_ Hr]%andb_true_iff [->|[r ->]]; [done|].
  by simpl in Hr.
Qed.

(** X1: on a line of a content, a match of [PROPERTY_RE] covers the whole
    line: the line is its first group, a kind tag and one or more digits,
    followed by its second group, the dot and at least one more character;
    nothing of the line is outside the two groups. *)
Theorem X1_groups_cover_line contents line enum prop :
  line ∈ content_lines contents →
  Re.PROPERTY_RE_match line = Some (enum, prop) →
  line = enum +:+ prop ∧
  in_lang group1 enum ∧ in_lang group2 prop ∧ in_lang PROPERTY_RE line.
Proof.
  intros Hin (H1 & H2 & rest & Hline & Hend)%PROPERTY_RE_match_lang.
  assert (rest = EmptyString) as ->.
  { apply (line_end_no_newline (enum +:+ prop)); [|done].
    rewrite sapp_assoc, <-Hline. by eapply content_lines_no_newline. }
  rewrite sapp_nil_r in Hline. split_and!; [done..|].
  rewrite Hline. by apply in_Seq.
Qed.

End match_on_lines.

Lemma X1_groups_cover_line_witness :
  "language3.className=Foo " = "language3" +:+ ".className=Foo " ∧
  in_lang group1 "language3" ∧ in_lang group2 ".className=Foo " ∧
  in_lang PROPERTY_RE "language3.className=Foo ".
Proof.
  apply (X1_groups_cover_line
           ("language3.className=Foo " +:+ nl +:+ "#c") "language3.className=Foo "
           "language3" ".className=Foo ").
  - vm_compute. apply list_elem_of_here.
  - reflexivity.
Defined.

(** ** What [__add__] records and what it raises *)

Section add_outcomes.

Implicit Types (lines : list string) (m : properties_t).

(** X2: the batch of a content holds a group key exactly when a line that
    is not a comment has that key, and holds for it the suffixes of those
    lines in the order of the lines. *)
Theorem X2_batch_groups_by_key arcname contents (properties : properties_t) enum :
  parses_to arcname contents properties →
  properties !! enum
  = match line_props enum (content_lines contents) with
    | [] => None
    | props => Some props
    end ∧
  ∀ prop, prop ∈ line_props enum (content_lines contents) ↔
          ∃ line, line ∈ content_lines contents ∧
                  PyStr.startswith line "#" = false ∧
                  Re.PROPERTY_RE_match line = Some (enum, prop).
Proof.
  intros Hp. split.
  - rewrite (add_lines_lookup _ _ _ _ enum Hp), lookup_empty.
    by destruct (line_props enum (content_lines contents)).
  - intros prop. unfold line_props. rewrite list_elem_of_omap. split.
    + intros (line & Hin & H). exists line. split; [done|].
      destruct (PyStr.startswith line "#"); [done|]. split; [done|].
      destruct (Re.PROPERTY_RE_match line) as [[enum' prop']|]; [|done].
      case_decide; by simplify_eq.
    + intros (line & Hin & Hc & Hm). exists line. split; [done|].
      by rewrite Hc, Hm, decide_True.
Qed.

Lemma add_lines_Raise_inv arcname lines m e :
  add_lines arcname lines m = Raise e →
  ∃ lines1 line lines2,
    lines = lines1 ++ line :: lines2 ∧ Forall good_line lines1 ∧ bad_line line ∧
    e = format_error arcname line.
Proof.
  revert m. induction lines as [|line lines IH]; intros m H; [done|].
  simpl in H. destruct (PyStr.startswith line "#") eqn:Hc.
  - destruct (IH _ H) as (l1 & l & l2 & -> & Hl1 & Hl & ->).
    exists (line :: l1), l, l2. split_and!; [done| |done..].
    apply Forall_cons. split; [by left|done].
  - destruct (Re.PROPERTY_RE_match line) as [[enum prop]|] eqn:Hm.
    + destruct (IH _ H) as (l1 & l & l2 & -> & Hl1 & Hl & ->).
      exists (line :: l1), l, l2. split_and!; [done| |done..].
      apply Forall_cons. split; [|done]. apply good_line_match. right. eauto.
    + exists [], line, lines. split_and!; [done|apply Forall_nil_2| |by simplify_eq].
      by apply bad_line_no_match.
Qed.

Lemma add_lines_first_bad arcname lines1 line lines2 m :
  Forall good_line lines1 → bad_line line →
  add_lines arcname (lines1 ++ line :: lines2) m = Raise (format_error arcname line).
Proof.
  intros Hl1 Hl. revert m. induction Hl1 as [|l lines1 Hg _ IH]; intros m.
  - apply bad_line_no_match in Hl as [Hc Hm]. simpl. by rewrite Hc, Hm.
  - rewrite <-app_comm_cons. simpl.
    destruct (PyStr.startswith l "#") eqn:Hc; [done|].
    apply good_line_match in Hg as [?|[[enum prop] Hm]]; [congruence|].
    by rewrite Hm.
Qed.

(** X3: the loop of [__add__] raises exactly when some line is neither a
    comment nor of the pattern, and the exception is the format error of
    the first such line; [__add__] raises nothing else, and only for a
    recognized entry, whose batch it then drops as a whole. *)
Theorem X3_first_bad_line arcname :
  (∀ lines m e,
     add_lines arcname lines m = Raise e ↔
     ∃ lines1 line lines2,
       lines = lines1 ++ line :: lines2 ∧ Forall good_line lines1 ∧ bad_line line ∧
       e = format_error arcname line) ∧
  (∀ contents self e self',
     __add__ arcname contents self = (Raise e, self') →
     self' = self ∧ is_Some (_truffle_metainf_file arcname) ∧
     ∃ lines1 line lines2,
       content_lines contents = lines1 ++ line :: lines2 ∧
       Forall good_line lines1 ∧ bad_line line ∧ e = format_error arcname line).
Proof.
  split.
  - intros lines m e. split; [apply add_lines_Raise_inv|].
    intros (l1 & line & l2 & -> & Hl1 & Hl & ->). by apply add_lines_first_bad.
  - intros contents self e self' H. unfold __add__ in H.
    destruct (_truffle_metainf_file arcname) as [kind|]; [|done].
    destruct (add_lines arcname (content_lines contents) ∅) as [m|e'] eqn:E; [done|].
    simplify_eq. split_and!; [done|by eauto|]. by eapply add_lines_Raise_inv.
Qed.

End add_outcomes.

Lemma X2_batch_groups_by_key_witness :
  ({[ "language2" := [".a"; ".c"]; "language1" := [".b"] ]} : properties_t)
    !! "language2"
  = match line_props "language2"
            (content_lines ("language2.a" +:+ nl +:+ "language1.b" +:+ nl
                            +:+ "#x" +:+ nl +:+ "language2.c")) with
    | [] => None
    | props => Some props
    end.
Proof.
  apply (X2_batch_groups_by_key "META-INF/truffle/language"
           ("language2.a" +:+ nl +:+ "language1.b" +:+ nl +:+ "#x" +:+ nl
            +:+ "language2.c")).
  vm_compute. reflexivity.
Defined.

Lemma X3_first_bad_line_witness :
  ∃ lines1 line lines2,
    content_lines ("language1.a" +:+ nl +:+ "language.x" +:+ nl +:+ "foo")
    = lines1 ++ line :: lines2 ∧
    Forall good_line lines1 ∧ bad_line line ∧
    format_error "META-INF/truffle/language" "language.x"
    = format_error "META-INF/truffle/language" line.
Proof.
  destruct (X3_first_bad_line "META-INF/truffle/language") as [_ H].
  destruct (H ("language1.a" +:+ nl +:+ "language.x" +:+ nl +:+ "foo") fresh
              (format_error "META-INF/truffle/language" "language.x") fresh)
    as (_ & _ & Hex).
  - vm_compute. reflexivity.
  - exact Hex.
Defined.

(** ** Nothing is lost and nothing is made up *)

Section conservation.

Variable linesep : string.

Implicit Types (lines : list string) (m : properties_t) (kind : string)
  (groups : list (list string)).

Lemma values_setdefault_append m enum prop :
  mjoin ((map_to_list (setdefault_append enum prop m)).*2)
  ≡ₚ mjoin ((map_to_list m).*2) ++ [prop].
Proof.
  unfold setdefault_append. destruct (m !! enum) as [props|] eqn:E; simpl.
  - rewrite <-(insert_delete_eq m).
    rewrite map_to_list_insert by apply lookup_delete_eq.
    rewrite <-(map_to_list_delete m enum props E). rewrite !fmap_cons. simpl.
    rewrite <-!app_assoc. apply Permutation_app_head, Permutation_app_comm.
  - rewrite map_to_list_insert by done. rewrite fmap_cons. simpl.
    apply Permutation_cons_append.
Qed.

Lemma add_lines_values arcname lines m (properties : properties_t) :
  add_lines arcname lines m = Return properties →
  mjoin ((map_to_list properties).*2) ≡ₚ mjoin ((map_to_list m).*2) ++ all_props lines.
Proof.
  revert m. induction lines as [|line lines IH]; intros m H; simpl in H.
  - simplify_eq. by rewrite app_nil_r.
  - unfold all_props. simpl. destruct (PyStr.startswith line "#"); [by apply IH|].
    destruct (Re.PROPERTY_RE_match line) as [[enum prop]|]; [|done]. simpl.
    rewrite (IH _ H), values_setdefault_append. by rewrite <-app_assoc.
Qed.

Lemma batch_groups_values m : batch_groups m ≡ₚ (map_to_list m).*2.
Proof.
  unfold batch_groups. rewrite sorted_Permutation. unfold viewkeys.
  rewrite <-list_fmap_compose.
  assert ((λ enum, default [] (m !! enum)) ∘ fst <$> map_to_list m
          = (map_to_list m).*2) as ->; [|done].
  apply Forall_fmap_ext_1, Forall_forall.
  intros [enum props] Hin%elem_of_map_to_list. simpl. by rewrite Hin.
Qed.

Lemma merged_groups_values arcname contentsList (propertiesList : list properties_t) :
  Forall2 (parses_to arcname) contentsList propertiesList →
  mjoin (merged_groups propertiesList)
  ≡ₚ mjoin ((λ contents, all_props (content_lines contents)) <$> contentsList).
Proof.
  induction 1 as [|contents m cs ms Hm _ IH]; [done|].
  rewrite merged_groups_cons, join_app, fmap_cons. simpl.
  rewrite IH, batch_groups_values. apply Permutation_app_tail.
  rewrite (add_lines_values _ _ _ _ Hm), map_to_list_empty. done.
Qed.

Lemma group_lines_zip kind n (group : list string) :
  group_lines kind n group
  = zip_with String.append (replicate (length group) (kind +:+ PyStr.str n)) group.
Proof. unfold group_lines. induction group as [|p g IH]; simpl; by f_equal. Qed.

Lemma line_keys_cons kind c (group : list string) groups :
  line_keys kind c (group :: groups)
  = replicate (length group) (kind +:+ PyStr.str c) ++ line_keys kind (c + 1) groups.
Proof.
  unfold line_keys. rewrite imap_cons. simpl. rewrite N.add_0_r. do 2 f_equal.
  apply imap_ext. intros i g _. simpl.
  by replace (c + 1 + N.of_nat i)%N with (c + N.of_nat (S i))%N by lia.
Qed.

Lemma numbered_from_zip kind c groups :
  numbered_from kind c groups
  = zip_with String.append (line_keys kind c groups) (mjoin groups) ∧
  length (line_keys kind c groups) = length (mjoin groups).
Proof.
  revert c. induction groups as [|g groups IH]; intros c; [done|].
  destruct (IH (c + 1)%N) as [IH1 IH2].
  rewrite numbered_from_cons, line_keys_cons. simpl. split.
  - rewrite zip_with_app by by rewrite length_replicate.
    by rewrite IH1, group_lines_zip.
  - by rewrite !length_app, length_replicate, IH2.
Qed.

Lemma length_all_props lines :
  Forall good_line lines → length (all_props lines) = length (without_comments lines).
Proof.
  unfold all_props, without_comments.
  induction 1 as [|line lines Hg _ IH]; [done|]. simpl.
  destruct (PyStr.startswith line "#") eqn:Hc.
  - by rewrite filter_cons_False by congruence.
  - rewrite filter_cons_True by done.
    apply good_line_match in Hg as [?|[[enum prop] Hm]]; [congruence|].
    rewrite Hm. simpl. f_equal. exact IH.
Qed.

Lemma parses_to_good arcname contents m :
  parses_to arcname contents m → Forall good_line (content_lines contents).
Proof.
  intros Hp. apply Forall_forall. intros line Hin.
  destruct (good_or_bad line) as [|Hb]; [done|].
  destruct (add_lines_bad arcname (content_lines contents) ∅) as (l & _ & _ & Hr).
  { apply Exists_exists. eauto. }
  unfold parses_to in Hp. congruence.
Qed.

(** The lines of the merged groups are new keys followed by suffixes, and
    these suffixes are, with their multiplicities, the suffixes of the
    lines read that are not comments. *)
Lemma numbered_lines_suffixes arcname kind contentsList
    (propertiesList : list properties_t) :
  Forall2 (parses_to arcname) contentsList propertiesList →
  numbered_lines kind (merged_groups propertiesList)
  = zip_with String.append (line_keys kind 1 (merged_groups propertiesList))
             (mjoin (merged_groups propertiesList)) ∧
  length (line_keys kind 1 (merged_groups propertiesList))
  = length (mjoin (merged_groups propertiesList)) ∧
  mjoin (merged_groups propertiesList)
  ≡ₚ mjoin ((λ contents, all_props (content_lines contents)) <$> contentsList) ∧
  length (numbered_lines kind (merged_groups propertiesList))
  = length (mjoin ((λ contents, without_comments (content_lines contents))
                     <$> contentsList)).
Proof.
  intros H. pose proof (merged_groups_values _ _ _ H) as Hperm.
  destruct (numbered_from_zip kind 1 (merged_groups propertiesList)) as [Hz Hl].
  split_and!; [done..|].
  unfold numbered_lines. rewrite Hz, length_zip_with_l_eq by done.
  rewrite Hl, Hperm. clear Hperm Hz Hl.
  induction H as [|contents m cs ms Hm _ IH]; [done|].
  rewrite !fmap_cons. simpl. rewrite !length_app, IH. f_equal.
  apply length_all_props. by eapply parses_to_good.
Qed.

Lemma line_keys_kind kind c groups :
  Forall (λ key, ∃ n : N, key = kind +:+ PyStr.str n) (line_keys kind c groups).
Proof.
  revert c. induction groups as [|group groups IH]; intros c; [by apply Forall_nil_2|].
  rewrite line_keys_cons. apply Forall_app. split; [|apply IH].
  apply Forall_replicate. by exists c.
Qed.

(** X4: merging keeps the suffixes. The entry that the session of the
    entries of a kind writes is made of lines that are each a new key of the
    kind followed by a suffix, and these suffixes are, with their
    multiplicities, the suffixes of the lines read that are not comments:
    the entry has one line for each such line. *)
Theorem X4_suffixes_conserved arcname kind contentsList
    (propertiesList : list properties_t) self :
  _truffle_metainf_file arcname = Some kind →
  Forall2 (parses_to arcname) contentsList propertiesList →
  Forall (tagged kind) propertiesList →
  contentsList ≠ [] →
  ∃ keys suffixes,
    session linesep ((arcname,.) <$> contentsList) self
    = (Return (replicate (length contentsList) true),
       {| settings := {[kind := propertiesList]};
          arc := {| zf := [(arcname,
                            PyStr.join linesep (zip_with String.append keys suffixes)
                            +:+ linesep)] |} |}) ∧
    length keys = length suffixes ∧
    Forall (λ key, ∃ n : N, key = kind +:+ PyStr.str n) keys ∧
    suffixes
    ≡ₚ mjoin ((λ contents, all_props (content_lines contents)) <$> contentsList) ∧
    length suffixes
    = length (mjoin ((λ contents, without_comments (content_lines contents))
                       <$> contentsList)).
Proof.
  intros Hk Hp Htag Hne.
  destruct (numbered_lines_suffixes arcname kind _ _ Hp) as (Hz & Hl & Hperm & Hlen).
  exists (line_keys kind 1 (merged_groups propertiesList)),
    (mjoin (merged_groups propertiesList)).
  split_and!; [|done|apply line_keys_kind|done|].
  - rewrite <-Hz. by apply session_tagged.
  - rewrite <-Hlen, Hz, length_zip_with_l_eq by done. by rewrite Hl.
Qed.

End conservation.

Lemma X4_suffixes_conserved_witness :
  (∃ keys suffixes,
     session nl
       [("META-INF/truffle/language",
         "language2.a" +:+ nl +:+ "language1.b" +:+ nl +:+ "#x" +:+ nl
         +:+ "language2.c");
        ("META-INF/truffle/language", "language1.a")]
       fresh
     = (Return [true; true],
        {| settings :=
             {[ "language" := [ {[ "language2" := [".a"; ".c"]; "language1" := [".b"] ]};
                                {[ "language1" := [".a"] ]} ] ]};
           arc := {| zf := [("META-INF/truffle/language",
                             PyStr.join nl (zip_with String.append keys suffixes)
                             +:+ nl)] |} |}) ∧
     length keys = length suffixes ∧
     suffixes ≡ₚ [".a"; ".b"; ".c"; ".a"] ∧
     length suffixes = 4%nat) ∧
  zf (arc (session nl
             [("META-INF/truffle/language",
               "language2.a" +:+ nl +:+ "language1.b" +:+ nl +:+ "#x" +:+ nl
               +:+ "language2.c");
              ("META-INF/truffle/language", "language1.a")]
             fresh).2)
  = [("META-INF/truffle/language",
      "language1.b" +:+ nl +:+ "language2.a" +:+ nl +:+ "language2.c" +:+ nl
      +:+ "language3.a" +:+ nl)].
Proof.
  split; [|vm_compute; reflexivity].
  destruct (X4_suffixes_conserved nl "META-INF/truffle/language" "language"
              ["language2.a" +:+ nl +:+ "language1.b" +:+ nl +:+ "#x" +:+ nl
               +:+ "language2.c";
               "language1.a"]
              [ {[ "language2" := [".a"; ".c"]; "language1" := [".b"] ]};
                {[ "language1" := [".a"] ]} ] fresh)
    as (keys & suffixes & Hs & Hl & _ & Hperm & Hlen).
  - reflexivity.
  - repeat constructor; vm_compute; reflexivity.
  - by_evaluation.
  - discriminate.
  - exists keys, suffixes. split_and!; [exact Hs|exact Hl|exact Hperm|exact Hlen].
Defined.

(** ** Sessions that mix the kinds *)

Section mixed_sessions.

Variable linesep : string.

Implicit Types (entries : list (string * string)) (self : TruffleArchiveParticipant)
  (kind arcname : string).

Lemma kind_contents_cons kind arcname contents entries :
  kind_contents kind ((arcname, contents) :: entries)
  = if decide (_truffle_metainf_file arcname = Some kind)
    then contents :: kind_contents kind entries
    else kind_contents kind entries.
Proof. unfold kind_contents. simpl. by case_decide. Qed.

Lemma elem_of_kind_contents kind entries contents :
  contents ∈ kind_contents kind entries ↔
  ∃ arcname, (arcname, contents) ∈ entries ∧ _truffle_metainf_file arcname = Some kind.
Proof.
  unfold kind_contents. rewrite list_elem_of_omap. split.
  - intros ([a c] & Hin & H). simpl in H. case_decide; simplify_eq. eauto.
  - intros (a & Hin & Hk). exists (a, contents). split; [done|]. simpl.
    by rewrite decide_True.
Qed.

(** What the [add]s of a list of entries leave in the settings table. *)
Lemma add_all_settings entries self flags self' :
  add_all entries self = (Return flags, self') →
  flags = (λ entry, bool_decide (is_Some (_truffle_metainf_file entry.1))) <$> entries ∧
  arc self' = arc self ∧
  ∀ kind, ∃ propertiesList : list properties_t,
    Forall2 (parses_to ("META-INF/truffle/" +:+ kind))
            (kind_contents kind entries) propertiesList ∧
    settings self' !! kind
    = match propertiesList with
      | [] => settings self !! kind
      | _ => Some (default [] (settings self !! kind) ++ propertiesList)
      end.
Proof.
  revert self flags self'.
  induction entries as [|[arcname contents] entries IH]; intros self flags self' H.
  - simpl in H. unfold mret, M_ret in H. simplify_eq. split_and!; [done..|].
    intros kind. exists []. split; [apply Forall2_nil_2|done].
  - rewrite add_all_cons in H. unfold __add__ in H.
    destruct (_truffle_metainf_file arcname) as [k|] eqn:Hk.
    + destruct (add_lines arcname (content_lines contents) ∅) as [m|e] eqn:Hm; [|done].
      match type of H with
      | context [add_all entries ?s] => destruct (add_all entries s)
          as [[flags1|e] self2] eqn:E; [|done]
      end.
      simplify_eq. destruct (IH _ _ _ E) as (-> & Harc & Hs).
      split_and!; [by rewrite fmap_cons; simpl; rewrite Hk|done|].
      intros kind. destruct (Hs kind) as (ms & Hms & Hlook).
      rewrite kind_contents_cons. cbn [settings] in Hlook.
      unfold setdefault_append in Hlook. case_decide as Hkind.
      * assert (k = kind) as -> by congruence. exists (m :: ms). split.
        { apply Forall2_cons. split; [|done]. unfold parses_to.
          by rewrite <-(metainf_file_arcname arcname kind). }
        rewrite Hlook, lookup_insert_eq. destruct ms; simpl; [done|].
        by rewrite <-app_assoc.
      * exists ms. split; [done|]. rewrite Hlook.
        rewrite lookup_insert_ne by congruence. done.
    + destruct (add_all entries self) as [[flags1|e] self2] eqn:E; [|done].
      simplify_eq. destruct (IH _ _ _ E) as (-> & Harc & Hs).
      split_and!; [by rewrite fmap_cons; simpl; rewrite Hk|done|].
      intros kind. rewrite kind_contents_cons, decide_False by congruence. apply Hs.
Qed.

(** X5: when the [add]s of a list of entries all return, each returned
    true exactly for the recognized names, the archive was not touched,
    and the settings table got, for each kind, the batches of the contents
    of that kind appended in the order of the entries; a kind without
    entries kept what it had. *)
Theorem X5_add_all_settings entries self flags self' :
  add_all entries self = (Return flags, self') →
  flags = (λ entry, bool_decide (is_Some (_truffle_metainf_file entry.1))) <$> entries ∧
  arc self' = arc self ∧
  ∀ kind, ∃ propertiesList : list properties_t,
    Forall2 (parses_to ("META-INF/truffle/" +:+ kind))
            (kind_contents kind entries) propertiesList ∧
    settings self' !! kind
    = match propertiesList with
      | [] => settings self !! kind
      | _ => Some (default [] (settings self !! kind) ++ propertiesList)
      end.
Proof. apply add_all_settings. Qed.

Lemma closing_Return_tagged self self' :
  __closing__ linesep self = (Return tt, self') →
  Forall tagged_item (map_to_list (settings self)) ∧
  self' = {| settings := settings self;
             arc := {| zf := zf (arc self)
                             ++ (merged_entry linesep <$> map_to_list (settings self)) |} |}.
Proof.
  unfold __closing__. intros H.
  destruct (Forall_or_first tagged_item (map_to_list (settings self)))
    as [Hall|(written & item & items & Heq & Hw & Hi)].
  - split; [done|]. rewrite closing_items_tagged in H by done. by simplify_eq.
  - rewrite Heq, closing_items_untagged in H by done. done.
Qed.

Lemma session_inv entries self flags self' :
  session linesep entries self = (Return flags, self') →
  ∃ self1, add_all entries fresh = (Return flags, self1) ∧
           __closing__ linesep self1 = (Return tt, self').
Proof.
  rewrite session_unfold. fold fresh. unfold mbind at 1, M_bind at 1.
  destruct (add_all entries fresh) as [[flags1|e] self1]; [|done].
  unfold mbind, M_bind. destruct (__closing__ linesep self1) as [[[]|e] self2] eqn:E;
    [|done].
  unfold mret, M_ret. intros ?. simplify_eq. eauto.
Qed.

Lemma fresh_settings_lookup entries flags self1 kind :
  add_all entries fresh = (Return flags, self1) →
  ∃ propertiesList : list properties_t,
    Forall2 (parses_to ("META-INF/truffle/" +:+ kind))
            (kind_contents kind entries) propertiesList ∧
    settings self1 !! kind
    = match propertiesList with [] => None | _ => Some propertiesList end.
Proof.
  intros (_ & _ & H)%add_all_settings. destruct (H kind) as (ms & Hms & Hlook).
  exists ms. split; [done|]. rewrite Hlook. by destruct ms.
Qed.

(** X6: in a session that returns, the two kinds are merged apart: the
    entry written for a kind is the merge of the batches of the contents of
    that kind, in the order of their entries, wherever the entries of the
    other kind and the entries that are not recognized stand; a kind
    without entries gets no entry, and every name written is a recognized
    name that the session has added. *)
Theorem X6_session_per_kind entries self flags self' :
  session linesep entries self = (Return flags, self') →
  (∀ kind, ∃ propertiesList : list properties_t,
     Forall2 (parses_to ("META-INF/truffle/" +:+ kind))
             (kind_contents kind entries) propertiesList ∧
     Forall (tagged kind) propertiesList ∧
     ∀ content,
       ("META-INF/truffle/" +:+ kind, content) ∈ zf (arc self') ↔
       propertiesList ≠ [] ∧
       content = PyStr.join linesep (numbered_lines kind (merged_groups propertiesList))
                 +:+ linesep) ∧
  (∀ arcname content,
     (arcname, content) ∈ zf (arc self') →
     is_Some (_truffle_metainf_file arcname) ∧ ∃ contents, (arcname, contents) ∈ entries).
Proof.
  intros (self1 & Hadd & Hclose)%session_inv.
  apply closing_Return_tagged in Hclose as [Htag ->].
  pose proof (add_all_arc entries fresh) as Harc. rewrite Hadd in Harc.
  simpl in Harc. cbn [arc zf]. rewrite Harc. cbn [arc zf fresh]. rewrite app_nil_l.
  rewrite Forall_forall in Htag.
  split.
  - intros kind. destruct (fresh_settings_lookup _ _ _ kind Hadd) as (ms & Hms & Hlook).
    exists ms. split_and!; [done|..].
    + destruct ms as [|m ms]; [apply Forall_nil_2|].
      apply (Htag (kind, m :: ms)). by apply elem_of_map_to_list.
    + intros content. rewrite list_elem_of_fmap. split.
      * intros ([k ms'] & Heq & Hin%elem_of_map_to_list).
        unfold merged_entry in Heq. simpl in Heq.
        injection Heq as Hk%(inj (String.app _)) ->. subst k.
        rewrite Hlook in Hin. destruct ms; by simplify_eq.
      * intros [Hne ->]. exists (kind, ms). split; [done|].
        apply elem_of_map_to_list. rewrite Hlook. by destruct ms.
  - intros arcname content. rewrite list_elem_of_fmap.
    intros ([k ms'] & Heq & Hin%elem_of_map_to_list).
    unfold merged_entry in Heq. simpl in Heq. injection Heq as -> ->.
    destruct (fresh_settings_lookup _ _ _ k Hadd) as (ms & Hms & Hlook).
    rewrite Hlook in Hin. destruct ms as [|m ms]; [done|].
    apply Forall2_cons_inv_r in Hms as (c & cs & _ & _ & Hcs).
    assert (c ∈ kind_contents k entries) as Hc by (rewrite Hcs; left).
    apply elem_of_kind_contents in Hc as (a & Ha & Hk).
    rewrite <-(metainf_file_arcname a k Hk). eauto.
Qed.




End mixed_sessions.

Lemma X5_add_all_settings_witness :
  ∃ propertiesList : list properties_t,
    Forall2 (parses_to ("META-INF/truffle/" +:+ "language"))
      (kind_contents "language"
         [("META-INF/truffle/instrument", "instrument7.a");
          ("META-INF/MANIFEST.MF", "Manifest-Version: 1.0");
          ("META-INF/truffle/language", "language1.b" +:+ nl +:+ "language0.c")])
      propertiesList ∧
    settings
      (add_all
         [("META-INF/truffle/instrument", "instrument7.a");
          ("META-INF/MANIFEST.MF", "Manifest-Version: 1.0");
          ("META-INF/truffle/language", "language1.b" +:+ nl +:+ "language0.c")]
         fresh).2 !! "language"
    = match propertiesList with
      | [] => settings fresh !! "language"
      | _ => Some (default [] (settings fresh !! "language") ++ propertiesList)
      end.
Proof.
  destruct (X5_add_all_settings
              [("META-INF/truffle/instrument", "instrument7.a");
               ("META-INF/MANIFEST.MF", "Manifest-Version: 1.0");
               ("META-INF/truffle/language", "language1.b" +:+ nl +:+ "language0.c")]
              fresh [true; false; true]
              (add_all
                 [("META-INF/truffle/instrument", "instrument7.a");
                  ("META-INF/MANIFEST.MF", "Manifest-Version: 1.0");
                  ("META-INF/truffle/language", "language1.b" +:+ nl +:+ "language0.c")]
                 fresh).2) as (_ & _ & H).
  - vm_compute. reflexivity.
  - exact (H "language").
Defined.

Lemma X6_session_per_kind_witness :
  ∃ propertiesList : list properties_t,
    Forall2 (parses_to ("META-INF/truffle/" +:+ "language"))
      (kind_contents "language"
         [("META-INF/truffle/language", "language1.b");
          ("META-INF/truffle/instrument", "instrument7.a");
          ("META-INF/MANIFEST.MF", "Manifest-Version: 1.0");
          ("META-INF/truffle/language", "language1.c")])
      propertiesList ∧
    Forall (tagged "language") propertiesList ∧
    ∀ content,
      ("META-INF/truffle/" +:+ "language", content)
      ∈ zf (arc (session nl
                   [("META-INF/truffle/language", "language1.b");
                    ("META-INF/truffle/instrument", "instrument7.a");
                    ("META-INF/MANIFEST.MF", "Manifest-Version: 1.0");
                    ("META-INF/truffle/language", "language1.c")]
                   fresh).2) ↔
      propertiesList ≠ [] ∧
      content = PyStr.join nl (numbered_lines "language" (merged_groups propertiesList))
                +:+ nl.
Proof.
  destruct (X6_session_per_kind nl
              [("META-INF/truffle/language", "language1.b");
               ("META-INF/truffle/instrument", "instrument7.a");
               ("META-INF/MANIFEST.MF", "Manifest-Version: 1.0");
               ("META-INF/truffle/language", "language1.c")]
              fresh [true; true; false; true]
              (session nl
                 [("META-INF/truffle/language", "language1.b");
                  ("META-INF/truffle/instrument", "instrument7.a");
                  ("META-INF/MANIFEST.MF", "Manifest-Version: 1.0");
                  ("META-INF/truffle/language", "language1.c")]
                 fresh).2) as [H _].
  - vm_compute. reflexivity.
  - exact (H "language").
Defined.


(** ** What [__closing__] leaves behind *)

Section closing_outcomes.

Variable linesep : string.

Implicit Types (self : TruffleArchiveParticipant).

Lemma tagged_table_items (table : gmap string (list properties_t)) :
  tagged_table table ↔ Forall tagged_item (map_to_list table).
Proof.
  unfold tagged_table. rewrite map_Forall_to_list. apply Forall_proper; [|done].
  by intros [kind ms].
Qed.

Lemma closing_tagged_table self :
  tagged_table (settings self) →
  __closing__ linesep self
  = (Return tt,
     {| settings := settings self;
        arc := {| zf := zf (arc self)
                        ++ (merged_entry linesep <$> map_to_list (settings self)) |} |}).
Proof.
  intros H%tagged_table_items. unfold __closing__. by rewrite closing_items_tagged.
Qed.

Lemma closing_untagged_table self :
  ¬ tagged_table (settings self) →
  ∃ written item rest,
    map_to_list (settings self) = written ++ item :: rest ∧
    Forall tagged_item written ∧ ¬ tagged_item item ∧
    __closing__ linesep self
    = (Raise (AssertionError EmptyString),
       {| settings := settings self;
          arc := {| zf := zf (arc self) ++ (merged_entry linesep <$> written) |} |}).
Proof.
  rewrite tagged_table_items. intros H. unfold __closing__.
  destruct (Forall_or_first tagged_item (map_to_list (settings self)))
    as [?|(written & item & rest & Heq & Hw & Hi)]; [done|].
  exists written, item, rest. split_and!; [done..|].
  rewrite Heq. by apply closing_items_untagged.
Qed.

(** X8: [close] does not use up the settings table. Whatever it returns or
    raises, the table is as it was and the archive has only grown; it
    raises nothing but the assertion error without message; and on a table
    whose keys carry the tags of their kinds a second [close] writes every
    entry once more. *)
Theorem X8_close_keeps_table self :
  settings (__closing__ linesep self).2 = settings self ∧
  zf (arc self) `prefix_of` zf (arc (__closing__ linesep self).2) ∧
  ((__closing__ linesep self).1 = Return tt ∨
   (__closing__ linesep self).1 = Raise (AssertionError EmptyString)) ∧
  (tagged_table (settings self) →
   (__closing__ linesep;; __closing__ linesep) self
   = (Return tt,
      {| settings := settings self;
         arc := {| zf := zf (arc self)
                         ++ (merged_entry linesep <$> map_to_list (settings self))
                         ++ (merged_entry linesep <$> map_to_list (settings self)) |} |})).
Proof.
  destruct (decide (tagged_table (settings self))) as [Ht|Hn].
  - rewrite closing_tagged_table by done. simpl.
    split_and!; [done|by apply prefix_app_r|by left|]. intros _.
    unfold mbind, M_bind. rewrite closing_tagged_table by done.
    rewrite closing_tagged_table by done. simpl. by rewrite <-app_assoc.
  - destruct (closing_untagged_table self Hn) as (w & i & r & _ & _ & _ & ->).
    simpl. split_and!; [done|by apply prefix_app_r|by right|done].
Qed.

(** X9: [close] is not all or nothing. When some batch holds a key
    without the tag of its kind, [close] raises at the first such kind in
    the order in which it goes through the table, and the entries of the
    kinds before it are written and stay written. *)
Theorem X9_close_stops_at_failure self :
  ¬ tagged_table (settings self) →
  ∃ written item rest,
    map_to_list (settings self) = written ++ item :: rest ∧
    Forall tagged_item written ∧ ¬ tagged_item item ∧
    __closing__ linesep self
    = (Raise (AssertionError EmptyString),
       {| settings := settings self;
          arc := {| zf := zf (arc self) ++ (merged_entry linesep <$> written) |} |}).
Proof. apply closing_untagged_table. Qed.

End closing_outcomes.

Lemma X8_close_keeps_table_witness :
  (__closing__ nl;; __closing__ nl)
    {| settings := {[ "language" := [ {[ "language7" := [".a"] ]} ] ]};
       arc := {| zf := [] |} |}
  = (Return tt,
     {| settings := {[ "language" := [ {[ "language7" := [".a"] ]} ] ]};
        arc := {| zf := []
                        ++ (merged_entry nl
                              <$> map_to_list
                                    ({[ "language" := [ {[ "language7" := [".a"] ]} ] ]}
                                     : gmap string (list properties_t)))
                        ++ (merged_entry nl
                              <$> map_to_list
                                    ({[ "language" := [ {[ "language7" := [".a"] ]} ] ]}
                                     : gmap string (list properties_t))) |} |}).
Proof.
  destruct (X8_close_keeps_table nl
              {| settings := {[ "language" := [ {[ "language7" := [".a"] ]} ] ]};
                 arc := {| zf := [] |} |}) as (_ & _ & _ & H).
  apply H. cbn [settings]. by_evaluation.
Defined.

Lemma X9_close_stops_at_failure_witness :
  ∃ written item rest,
    map_to_list
      ({[ "instrument" := [ {[ "instrument1" := [".a"] ]} ];
          "language" := [ {[ "instrument1" := [".x"] ]} ] ]}
       : gmap string (list properties_t))
    = written ++ item :: rest ∧
    Forall tagged_item written ∧ ¬ tagged_item item ∧
    __closing__ nl
      {| settings := {[ "instrument" := [ {[ "instrument1" := [".a"] ]} ];
                        "language" := [ {[ "instrument1" := [".x"] ]} ] ]};
         arc := {| zf := [] |} |}
    = (Raise (AssertionError EmptyString),
       {| settings := {[ "instrument" := [ {[ "instrument1" := [".a"] ]} ];
                         "language" := [ {[ "instrument1" := [".x"] ]} ] ]};
          arc := {| zf := [] ++ (merged_entry nl <$> written) |} |}).
Proof.
  pose proof (X9_close_stops_at_failure nl
                {| settings := {[ "instrument" := [ {[ "instrument1" := [".a"] ]} ];
                                  "language" := [ {[ "instrument1" := [".x"] ]} ] ]};
                   arc := {| zf := [] |} |}) as H.
  cbn [settings arc zf] in H. apply H.
  intros Ht. apply (bool_decide_pack _) in Ht. vm_compute in Ht. exact Ht.
Defined.

(** ** The lines that are written *)

Section written_lines.

Variable linesep : string.

Implicit Types (kind arcname line prop : string).

Lemma group_line_decode kind n1 n2 prop1 prop2 :
  is_kind kind → wf_prop prop1 → wf_prop prop2 →
  (kind +:+ PyStr.str n1) +:+ prop1 = (kind +:+ PyStr.str n2) +:+ prop2 →
  n1 = n2 ∧ prop1 = prop2.
Proof.
  intros Hk H1 H2 Heq.
  destruct (match_group_line kind n1 prop1 Hk H1) as [_ Hm1].
  destruct (match_group_line kind n2 prop2 Hk H2) as [_ Hm2].
  rewrite Heq, Hm2 in Hm1. injection Hm1 as Hkey ->. split; [|done].
  symmetry. by apply (key_inj kind).
Qed.

(** A line of the merged groups is a line that [__add__] accepts and that
    [PROPERTY_RE] splits into its new key and its suffix. *)
Lemma numbered_line_match arcname kind contentsList
    (propertiesList : list properties_t) line :
  is_kind kind →
  Forall2 (parses_to arcname) contentsList propertiesList →
  line ∈ numbered_lines kind (merged_groups propertiesList) →
  PyStr.startswith line "#" = false ∧
  all_chars not_newline line = true ∧
  ∃ (i : nat) group prop,
    merged_groups propertiesList !! i = Some group ∧ prop ∈ group ∧
    line = (kind +:+ PyStr.str (1 + N.of_nat i)) +:+ prop ∧
    Re.PROPERTY_RE_match line = Some (kind +:+ PyStr.str (1 + N.of_nat i), prop) ∧
    PyStr.startswith (kind +:+ PyStr.str (1 + N.of_nat i)) kind = true.
Proof.
  intros Hk Hp Hin. pose proof (merged_groups_wf _ _ _ Hp) as Hwf.
  apply elem_of_numbered_from in Hin as (i & group & prop & Hi & Hprop & ->).
  assert (wf_prop prop) as Hw.
  { eapply Forall_lookup_1 in Hwf as [_ Hg]; [|done]. by eapply Forall_forall in Hg. }
  destruct (match_group_line kind (1 + N.of_nat i) prop Hk Hw) as [Hc Hm].
  split_and!; [done|by apply group_line_no_newline|].
  exists i, group, prop. split_and!; [done..|]. apply startswith_app.
Qed.

(** The numbers in front of the lines of the merged groups are those from 1
    to the number of groups. *)
Lemma numbered_lines_numbers arcname kind contentsList
    (propertiesList : list properties_t) :
  is_kind kind →
  Forall2 (parses_to arcname) contentsList propertiesList →
  (∀ n : N,
     (∃ prop, wf_prop prop ∧
              (kind +:+ PyStr.str n) +:+ prop
              ∈ numbered_lines kind (merged_groups propertiesList)) ↔
     (1 ≤ n ≤ N.of_nat (length (merged_groups propertiesList)))%N) ∧
  (∀ n1 n2 prop1 prop2,
     wf_prop prop1 → wf_prop prop2 →
     (kind +:+ PyStr.str n1) +:+ prop1 = (kind +:+ PyStr.str n2) +:+ prop2 →
     n1 = n2 ∧ prop1 = prop2).
Proof.
  intros Hk Hp. pose proof (merged_groups_wf _ _ _ Hp) as Hwf.
  split; [|intros; by eapply group_line_decode].
  intros n. split.
  - intros (prop & Hw & Hin).
    apply elem_of_numbered_from in Hin as (i & group & prop' & Hi & Hprop & Heq).
    assert (wf_prop prop') as Hw'.
    { eapply Forall_lookup_1 in Hwf as [_ Hg]; [|done].
      by eapply Forall_forall in Hg. }
    apply group_line_decode in Heq as [-> _]; [|done..].
    apply lookup_lt_Some in Hi. lia.
  - intros Hn. destruct (lookup_lt_is_Some_2 (merged_groups propertiesList)
                           (N.to_nat (n - 1))) as [group Hg]; [lia|].
    destruct (Forall_lookup_1 _ _ _ _ Hwf Hg) as [Hne Hall].
    destruct group as [|prop group]; [done|]. apply Forall_cons in Hall as [Hw _].
    exists prop. split; [done|]. apply elem_of_numbered_from.
    exists (N.to_nat (n - 1)), (prop :: group), prop. split_and!; [done|by left|].
    do 3 f_equal. lia.
Qed.

(** X10: the lines that the session of the entries of a kind writes are
    again in the format that [__add__] reads. There is one of them for each
    line read that is not a comment; none is a comment, none holds a
    newline, and [PROPERTY_RE] splits each into a new key, made of the kind
    and a number, and a suffix that is one of the suffixes read. *)
Theorem X10_written_lines_match arcname kind contentsList
    (propertiesList : list properties_t) self :
  _truffle_metainf_file arcname = Some kind →
  Forall2 (parses_to arcname) contentsList propertiesList →
  Forall (tagged kind) propertiesList →
  contentsList ≠ [] →
  ∃ lines,
    session linesep ((arcname,.) <$> contentsList) self
    = (Return (replicate (length contentsList) true),
       {| settings := {[kind := propertiesList]};
          arc := {| zf := [(arcname, PyStr.join linesep lines +:+ linesep)] |} |}) ∧
    length lines
    = length (mjoin ((λ contents, without_comments (content_lines contents))
                       <$> contentsList)) ∧
    Forall (λ line,
              PyStr.startswith line "#" = false ∧
              all_chars not_newline line = true ∧
              ∃ (n : N) prop,
                line = (kind +:+ PyStr.str n) +:+ prop ∧
                Re.PROPERTY_RE_match line = Some (kind +:+ PyStr.str n, prop) ∧
                PyStr.startswith (kind +:+ PyStr.str n) kind = true ∧
                prop ∈ mjoin ((λ contents, all_props (content_lines contents))
                                <$> contentsList))
           lines.
Proof.
  intros Hk Hp Htag Hne. pose proof (metainf_file_kind _ _ Hk) as Hkind.
  exists (numbered_lines kind (merged_groups propertiesList)).
  split_and!; [by apply session_tagged| |].
  - by destruct (numbered_lines_suffixes arcname kind _ _ Hp) as (_ & _ & _ & ->).
  - apply Forall_forall. intros line Hin.
    destruct (numbered_line_match arcname kind _ _ line Hkind Hp Hin)
      as (Hc & Hn & i & group & prop & Hi & Hprop & Hline & Hm & Hs).
    split_and!; [done..|]. exists (1 + N.of_nat i)%N, prop.
    split_and!; [done..|].
    rewrite <-(merged_groups_values _ _ _ Hp). apply list_elem_of_join.
    exists group. split; [done|]. by eapply list_elem_of_lookup_2.
Qed.

(** X11: the groups that the session of the entries of a kind writes are
    numbered 1, 2, ... without a gap: a number stands in front of some
    written line exactly when it lies between 1 and the number of keys of
    the batches, and every written line has one number and one suffix. *)
Theorem X11_numbers_without_gap arcname kind contentsList
    (propertiesList : list properties_t) self :
  _truffle_metainf_file arcname = Some kind →
  Forall2 (parses_to arcname) contentsList propertiesList →
  Forall (tagged kind) propertiesList →
  contentsList ≠ [] →
  ∃ lines,
    session linesep ((arcname,.) <$> contentsList) self
    = (Return (replicate (length contentsList) true),
       {| settings := {[kind := propertiesList]};
          arc := {| zf := [(arcname, PyStr.join linesep lines +:+ linesep)] |} |}) ∧
    (∀ n : N,
       (∃ prop, wf_prop prop ∧ (kind +:+ PyStr.str n) +:+ prop ∈ lines) ↔
       (1 ≤ n ≤ N.of_nat (sum_list (size <$> propertiesList)))%N) ∧
    Forall (λ line,
              ∃ (n : N) prop,
                wf_prop prop ∧ line = (kind +:+ PyStr.str n) +:+ prop ∧
                ∀ (n' : N) prop',
                  wf_prop prop' → line = (kind +:+ PyStr.str n') +:+ prop' →
                  n' = n ∧ prop' = prop)
           lines.
Proof.
  intros Hk Hp Htag Hne. pose proof (metainf_file_kind _ _ Hk) as Hkind.
  pose proof (merged_groups_wf _ _ _ Hp) as Hwf.
  destruct (numbered_lines_numbers arcname kind _ _ Hkind Hp) as [Hnum Hdec].
  exists (numbered_lines kind (merged_groups propertiesList)).
  split_and!; [by apply session_tagged| |].
  - intros n. rewrite <-length_merged_groups. apply Hnum.
  - apply Forall_forall. intros line Hin.
    apply elem_of_numbered_from in Hin as (i & group & prop & Hi & Hprop & ->).
    assert (wf_prop prop) as Hw.
    { destruct (Forall_lookup_1 _ _ _ _ Hwf Hi) as [_ Hg].
      by eapply Forall_forall in Hg. }
    exists (1 + N.of_nat i)%N, prop. split_and!; [done..|].
    intros n' prop' Hw' Heq. symmetry in Heq.
    by apply group_line_decode in Heq.
Qed.

End written_lines.

Lemma X10_written_lines_match_witness :
  (∃ lines,
     session nl
       [("META-INF/truffle/language", "language1.a");
        ("META-INF/truffle/language", "#x" +:+ nl +:+ "language1.c")]
       fresh
     = (Return [true; true],
        {| settings := {[ "language" := [ {[ "language1" := [".a"] ]};
                                          {[ "language1" := [".c"] ]} ] ]};
           arc := {| zf := [("META-INF/truffle/language", PyStr.join nl lines +:+ nl)] |} |}) ∧
     length lines = 2%nat ∧
     Forall (λ line,
               PyStr.startswith line "#" = false ∧
               all_chars not_newline line = true ∧
               ∃ (n : N) prop,
                 line = ("language" +:+ PyStr.str n) +:+ prop ∧
                 Re.PROPERTY_RE_match line = Some ("language" +:+ PyStr.str n, prop) ∧
                 PyStr.startswith ("language" +:+ PyStr.str n) "language" = true ∧
                 prop ∈ [".a"; ".c"])
            lines) ∧
  zf (arc (session nl
             [("META-INF/truffle/language", "language1.a");
              ("META-INF/truffle/language", "#x" +:+ nl +:+ "language1.c")]
             fresh).2)
  = [("META-INF/truffle/language", "language1.a" +:+ nl +:+ "language2.c" +:+ nl)].
Proof.
  split; [|vm_compute; reflexivity].
  destruct (X10_written_lines_match nl "META-INF/truffle/language" "language"
              ["language1.a"; "#x" +:+ nl +:+ "language1.c"]
              [ {[ "language1" := [".a"] ]}; {[ "language1" := [".c"] ]} ] fresh)
    as (lines & Hs & Hlen & Hall).
  - reflexivity.
  - repeat constructor; vm_compute; reflexivity.
  - by_evaluation.
  - discriminate.
  - exists lines. split_and!; [exact Hs|exact Hlen|exact Hall].
Defined.

Lemma X11_numbers_without_gap_witness :
  (∃ lines,
     session nl
       [("META-INF/truffle/language", "language1.a"); ("META-INF/truffle/language", "language1.c")]
       fresh
     = (Return [true; true],
        {| settings := {[ "language" := [ {[ "language1" := [".a"] ]};
                                          {[ "language1" := [".c"] ]} ] ]};
           arc := {| zf := [("META-INF/truffle/language", PyStr.join nl lines +:+ nl)] |} |}) ∧
     ((∃ prop, wf_prop prop ∧ "language2" +:+ prop ∈ lines) ↔ (1 ≤ 2 ≤ 2)%N) ∧
     ((∃ prop, wf_prop prop ∧ "language3" +:+ prop ∈ lines) ↔ (1 ≤ 3 ≤ 2)%N)) ∧
  zf (arc (session nl
             [("META-INF/truffle/language", "language1.a");
              ("META-INF/truffle/language", "language1.c")]
             fresh).2)
  = [("META-INF/truffle/language", "language1.a" +:+ nl +:+ "language2.c" +:+ nl)].
Proof.
  split; [|vm_compute; reflexivity].
  destruct (X11_numbers_without_gap nl "META-INF/truffle/language" "language"
              ["language1.a"; "language1.c"]
              [ {[ "language1" := [".a"] ]}; {[ "language1" := [".c"] ]} ] fresh)
    as (lines & Hs & Hnum & _).
  - reflexivity.
  - repeat constructor; vm_compute; reflexivity.
  - by_evaluation.
  - discriminate.
  - exists lines. split_and!; [exact Hs|exact (Hnum 2%N)|exact (Hnum 3%N)].
Defined.

(** ** Contents of comments only, and whitespace around a content *)

Section edges.

Variable linesep : string.

Implicit Types (s w contents arcname kind : string) (lines : list string).

Lemma add_lines_comments arcname lines (m : properties_t) :
  Forall (λ line, PyStr.startswith line "#" = true) lines →
  add_lines arcname lines m = Return m.
Proof.
  induction 1 as [|line lines Hc _ IH]; [done|]. simpl. by rewrite Hc.
Qed.

Lemma batch_groups_empty : batch_groups ∅ = [].
Proof. unfold batch_groups, viewkeys. by rewrite map_to_list_empty. Qed.

Lemma merged_groups_replicate_empty n :
  merged_groups (replicate n (∅ : properties_t)) = [].
Proof.
  induction n as [|n IH]; [done|]. simpl.
  by rewrite merged_groups_cons, batch_groups_empty, IH.
Qed.

(** X12: a recognized content of comments only is not an error and is not
    skipped: [add] returns true and records a batch without groups, and a
    session of such contents writes for their kind an entry that holds the
    line separator and nothing else. *)
Theorem X12_comments_only arcname kind contentsList self :
  _truffle_metainf_file arcname = Some kind →
  contentsList ≠ [] →
  Forall (λ contents,
            Forall (λ line, PyStr.startswith line "#" = true) (content_lines contents))
         contentsList →
  Forall (λ contents,
            __add__ arcname contents self
            = (Return true,
               {| settings := setdefault_append kind ∅ (settings self);
                  arc := arc self |})) contentsList ∧
  session linesep ((arcname,.) <$> contentsList) self
  = (Return (replicate (length contentsList) true),
     {| settings := {[kind := replicate (length contentsList) ∅]};
        arc := {| zf := [(arcname, linesep)] |} |}).
Proof.
  intros Hk Hne Hall. split.
  - eapply Forall_impl; [exact Hall|]. intros contents Hc. simpl in Hc.
    rewrite (add_recognized _ kind) by done. by rewrite add_lines_comments.
  - rewrite (session_kind linesep arcname kind contentsList
               (replicate (length contentsList) ∅)); [|done| |done].
    + rewrite closing_batches_tagged.
      * rewrite merged_groups_replicate_empty. done.
      * apply Forall_replicate. apply map_Forall_empty.
    + clear Hne. induction Hall as [|contents cs Hc _ IH]; [apply Forall2_nil_2|].
      simpl. apply Forall2_cons. split; [|done]. by apply add_lines_comments.
Qed.

(** X13: whitespace before and after a content, the newline that ends a
    generated file included, makes no difference: the lines are the same,
    and so is all that [add] does. *)
Theorem X13_surrounding_whitespace w1 contents w2 :
  all_chars Ascii.is_space w1 = true → all_chars Ascii.is_space w2 = true →
  content_lines (w1 +:+ contents +:+ w2) = content_lines contents ∧
  ∀ arcname self,
    __add__ arcname (w1 +:+ contents +:+ w2) self = __add__ arcname contents self.
Proof.
  intros H1 H2.
  assert (content_lines (w1 +:+ contents +:+ w2) = content_lines contents) as Hl.
  { unfold content_lines. by rewrite strip_surrounded. }
  split; [done|]. intros arcname self. unfold __add__. by rewrite Hl.
Qed.



End edges.

Lemma X12_comments_only_witness :
  session nl [("META-INF/truffle/instrument", "#generated" +:+ nl +:+ "# by hand")]
    fresh
  = (Return [true],
     {| settings := {[ "instrument" := [∅] ]};
        arc := {| zf := [("META-INF/truffle/instrument", nl)] |} |}).
Proof.
  apply (X12_comments_only nl "META-INF/truffle/instrument" "instrument"
           ["#generated" +:+ nl +:+ "# by hand"] fresh).
  - reflexivity.
  - discriminate.
  - repeat constructor.
Defined.

Lemma X13_surrounding_whitespace_witness :
  content_lines ((" " +:+ nl) +:+ "language1.a" +:+ (nl +:+ nl))
  = content_lines "language1.a".
Proof.
  apply (X13_surrounding_whitespace (" " +:+ nl) "language1.a" (nl +:+ nl));
    reflexivity.
Defined.


(** ** The order and the numbers of the groups *)

Section group_order.

Variable linesep : string.

Implicit Types (kind enum : string) (m : properties_t).

Lemma StronglySorted_lookup_le (l : list string) i j x y :
  StronglySorted String.le l → l !! i = Some x → l !! j = Some y → (i < j)%nat →
  String.le x y.
Proof.
  intros Hs. revert i j. induction Hs as [|a l _ IH Hall]; intros i j Hi Hj Hlt.
  - done.
  - destruct j as [|j]; [lia|]. simpl in Hj. destruct i as [|i].
    + simpl in Hi. simplify_eq. rewrite Forall_forall in Hall.
      apply Hall. by eapply list_elem_of_lookup_2.
    + simpl in Hi. apply (IH i j); [done..|lia].
Qed.

(** Of two keys of a batch, the one that is smaller as a string has the
    smaller place among the sorted keys and among the groups. *)
Lemma batch_groups_order m enum1 enum2 group1 group2 :
  m !! enum1 = Some group1 → m !! enum2 = Some group2 →
  String.le enum1 enum2 → enum1 ≠ enum2 →
  ∃ i j : nat,
    (i < j)%nat ∧
    PyStr.sorted (viewkeys m) !! i = Some enum1 ∧
    PyStr.sorted (viewkeys m) !! j = Some enum2 ∧
    batch_groups m !! i = Some group1 ∧ batch_groups m !! j = Some group2.
Proof.
  intros H1 H2 Hle Hne.
  assert (enum1 ∈ PyStr.sorted (viewkeys m)) as [i Hi]%list_elem_of_lookup.
  { apply elem_of_sorted_keys. eauto. }
  assert (enum2 ∈ PyStr.sorted (viewkeys m)) as [j Hj]%list_elem_of_lookup.
  { apply elem_of_sorted_keys. eauto. }
  exists i, j. split_and!; [|done..| |].
  - destruct (decide (i < j)%nat) as [|Hge]; [done|]. exfalso.
    destruct (decide (i = j)) as [->|Hij]; [congruence|].
    apply Hne. apply (anti_symm String.le); [done|].
    apply (StronglySorted_lookup_le (PyStr.sorted (viewkeys m)) j i);
      [apply sorted_StronglySorted|done..|lia].
  - unfold batch_groups. by rewrite list_lookup_fmap, Hi; simpl; rewrite H1.
  - unfold batch_groups. by rewrite list_lookup_fmap, Hj; simpl; rewrite H2.
Qed.

(** X15: within a batch the groups are written in the order of their keys
    as strings: of two keys of the content of an entry, the suffixes of the
    one that is smaller as a string are written under the smaller new
    number, so that the group of [language10] comes before the group of
    [language2]. *)
Theorem X15_string_order arcname kind contents m enum1 enum2 group1 group2 self :
  _truffle_metainf_file arcname = Some kind →
  parses_to arcname contents m →
  tagged kind m →
  m !! enum1 = Some group1 → m !! enum2 = Some group2 →
  String.le enum1 enum2 → enum1 ≠ enum2 →
  ∃ (i j : nat) lines,
    (i < j < size m)%nat ∧
    kind +:+ PyStr.str (1 + N.of_nat i) ≠ kind +:+ PyStr.str (1 + N.of_nat j) ∧
    session linesep [(arcname, contents)] self
    = (Return [true],
       {| settings := {[kind := [m]]};
          arc := {| zf := [(arcname, PyStr.join linesep lines +:+ linesep)] |} |}) ∧
    lines = numbered_lines kind (batch_groups m) ∧
    line_props (kind +:+ PyStr.str (1 + N.of_nat i)) lines = group1 ∧
    line_props (kind +:+ PyStr.str (1 + N.of_nat j)) lines = group2.
Proof.
  intros Hk Hp Htag H1 H2 Hle Hne.
  pose proof (metainf_file_kind _ _ Hk) as Hkind.
  pose proof (parsed_groups_wf _ _ _ Hp) as Hwf.
  destruct (batch_groups_order m enum1 enum2 group1 group2 H1 H2 Hle Hne)
    as (i & j & Hlt & _ & _ & Hi & Hj).
  exists i, j, (numbered_lines kind (batch_groups m)).
  split_and!; [done| | | |done| |].
  - apply lookup_lt_Some in Hj. by rewrite length_batch_groups in Hj.
  - intros Heq%key_inj. lia.
  - pose proof (session_tagged linesep arcname kind [contents] [m] self Hk) as Hs.
    rewrite merged_groups_cons in Hs.
    change (merged_groups []) with (@nil (list string)) in Hs.
    rewrite app_nil_r in Hs. apply Hs; [|by apply Forall_singleton|done].
    constructor; [done|constructor].
  - by apply line_props_numbered.
  - by apply line_props_numbered.
Qed.

(** X16: one more batch at the end only adds lines. The lines that the
    loops of [__closing__] give for the batches of a kind are kept, in
    place, when a batch is appended; the counter stands at one more than
    the number of keys of the batches so far, and the groups of the new
    batch are numbered from there. *)
Theorem X16_append_a_batch kind (propertiesList : list properties_t) m :
  Forall (tagged kind) (propertiesList ++ [m]) →
  ∃ lines counter,
    closing_batches kind propertiesList [] 1 = Return (lines, counter) ∧
    counter = (1 + N.of_nat (sum_list (size <$> propertiesList)))%N ∧
    closing_batches kind (propertiesList ++ [m]) [] 1
    = Return (lines ++ numbered_from kind counter (batch_groups m),
              (counter + N.of_nat (size m))%N).
Proof.
  intros Ht. pose proof Ht as [Hms Hm]%Forall_app.
  exists (numbered_from kind 1 (merged_groups propertiesList)),
    (1 + N.of_nat (length (merged_groups propertiesList)))%N.
  rewrite !closing_batches_tagged by done. rewrite !app_nil_l.
  split_and!; [done|by rewrite length_merged_groups|].
  rewrite merged_groups_app, numbered_from_app, length_app.
  assert (merged_groups [m] = batch_groups m) as ->.
  { unfold merged_groups. simpl. by rewrite app_nil_r. }
  rewrite length_batch_groups. do 2 f_equal. lia.
Qed.

End group_order.

Lemma X15_string_order_witness :
  "language1" ≠ "language2" ∧
  session nl
    [("META-INF/truffle/language", "language2.two" +:+ nl +:+ "language10.ten")] fresh
  = (Return [true],
     {| settings :=
          {[ "language" := [ {[ "language2" := [".two"]; "language10" := [".ten"] ]} ] ]};
        arc := {| zf := [("META-INF/truffle/language",
                          "language1.ten" +:+ nl +:+ "language2.two" +:+ nl)] |} |}) ∧
  line_props "language1" ["language1.ten"; "language2.two"] = [".ten"] ∧
  line_props "language2" ["language1.ten"; "language2.two"] = [".two"].
Proof.
  destruct (X15_string_order nl "META-INF/truffle/language" "language"
              ("language2.two" +:+ nl +:+ "language10.ten")
              {[ "language2" := [".two"]; "language10" := [".ten"] ]}
              "language10" "language2" [".ten"] [".two"] fresh)
    as (i & j & lines & Hij & Hne & Hs & Hl & H1 & H2).
  - reflexivity.
  - vm_compute. reflexivity.
  - by_evaluation.
  - reflexivity.
  - reflexivity.
  - by_evaluation.
  - discriminate.
  - vm_compute in Hij.
    assert (i = 0%nat) as -> by lia. assert (j = 1%nat) as -> by lia.
    vm_compute in Hl. subst lines. split_and!; [exact Hne|exact Hs|exact H1|exact H2].
Defined.

Lemma X16_append_a_batch_witness :
  ∃ lines counter,
    closing_batches "language" [ {[ "language1" := [".a"]; "language2" := [".b"] ]} ] [] 1
    = Return (lines, counter) ∧
    counter = (1 + N.of_nat (sum_list (size <$> [ ({[ "language1" := [".a"];
                                                       "language2" := [".b"] ]}
                                                   : properties_t) ])))%N ∧
    closing_batches "language"
      ([ {[ "language1" := [".a"]; "language2" := [".b"] ]} ]
       ++ [ {[ "language1" := [".c"] ]} ]) [] 1
    = Return (lines ++ numbered_from "language" counter
                         (batch_groups {[ "language1" := [".c"] ]}),
              (counter + N.of_nat (size ({[ "language1" := [".c"] ]} : properties_t)))%N).
Proof.
  apply (X16_append_a_batch "language"
           [ {[ "language1" := [".a"]; "language2" := [".b"] ]} ]
           {[ "language1" := [".c"] ]}).
  by_evaluation.
Defined.
